(** * Prompt chaining and retrieval-augmented title suggestion

    A shallow embedding of the two notebooks of the repository:

    - [demo/session-3/food-chatflow.ipynb], the menu chat bot built from
      four chained completion calls (module [FoodChat]);
    - the "RAG from Scratch" notebook, which loads a table of papers,
      indexes the titles in a vector store and composes a few-shot prompt
      (module [Rag]).

    Python code that talks to the outside world is written in a small
    state-and-exception monad.  The hosted completion endpoint, the random
    number generator and the embedding model are not part of the
    repository: the endpoint and the embedding model are section variables,
    the generator is the sequence of its future raw outputs. *)

From Stdlib Require Import String Ascii List NArith Arith QArith Lia Bool.
From Stdlib Require Import Sorted Permutation.
From Stdlib Require Import DecimalString DecimalN.
Import ListNotations.
Close Scope Q_scope.
Open Scope string_scope.
Open Scope list_scope.

Set Implicit Arguments.

(** ** Python results: a value or a raised exception *)

(** The failures the provider's client library raises from
    [chat.completions.create]. *)
Inductive api_failure : Type :=
| APIConnectionError
| AuthenticationError
| RateLimitError
| APIStatusError (status : N).

Inductive exn : Type :=
| CompletionError (e : api_failure)   (* the client library's own exception *)
| IndexError                   (* list index out of range *)
| TypeError                    (* iterating over a value that is no string *)
| ValueError                   (* no id, or argument lists of unequal length *)
| DuplicateIDError.            (* one call that holds an id twice *)

Inductive result (A : Type) : Type :=
| Ok (a : A)
| Raise (e : exn).
Arguments Ok {A} a.
Arguments Raise {A} e.

(** A computation over a state [S]: it returns normally or raises, and in
    both cases leaves a state behind. *)
Definition M (S A : Type) : Type := S -> result A * S.

Definition ret {S A : Type} (a : A) : M S A := fun s => (Ok a, s).

Definition raise {S A : Type} (e : exn) : M S A := fun s => (Raise e, s).

Definition bind {S A B : Type} (m : M S A) (k : A -> M S B) : M S B :=
  fun s =>
    match m s with
    | (Ok a, s') => k a s'
    | (Raise e, s') => (Raise e, s')
    end.

Declare Scope py_scope.
Delimit Scope py_scope with py.
Notation "x <- m ;; k" := (bind m (fun x => k))
  (at level 61, m at next level, right associativity) : py_scope.
Open Scope py_scope.

(** The double quote character, which string literals cannot hold. *)
Definition dquote : string := String (ascii_of_nat 34) EmptyString.

(** ** The hosted chat-completion endpoint *)

Module OpenAI.

Record message : Type := { role : string; content : string }.

(** The keyword arguments of [client.chat.completions.create]. *)
Record request : Type := { model : string; messages : list message }.

Record choice : Type := { choice_message : message }.

Record response : Type := { choices : list choice }.

Inductive outcome : Type :=
| Reply (r : response)
| Failure (e : api_failure).

(** The state of a session is the list of requests sent so far, oldest
    first. *)
Definition history : Type := list request.

(** An endpoint decides the outcome of a request from everything it has
    been sent, the request itself last: a provider with state of its own
    is a function of that history. *)
Definition endpoint : Type := history -> outcome.

(** [client.chat.completions.create(model=..., messages=...)]: one
    blocking call. *)
Definition create (ep : endpoint) (req : request) : M history response :=
  fun sent =>
    let sent' := sent ++ [req] in
    match ep sent' with
    | Reply r => (Ok r, sent')
    | Failure e => (Raise (CompletionError e), sent')
    end.

(** An endpoint without memory: the reply to a request is a single choice
    whose text is a function of the content of its last message. *)
Definition stateless (f : string -> string) : endpoint :=
  fun sent =>
    let prompt :=
      match last sent {| model := EmptyString; messages := [] |} with
      | {| messages := msgs |} =>
          content (last msgs {| role := EmptyString; content := EmptyString |})
      end in
    Reply {| choices :=
               [ {| choice_message := {| role := "assistant"; content := f prompt |} |} ] |}.

(** What the first choice of a reply holds, or the exception raised when
    there is none. *)
Definition first_choice (r : response) : result string :=
  match choices r with
  | c :: _ => Ok (content (choice_message c))
  | [] => Raise IndexError
  end.

(** What a call of the completion client hands back for an outcome of the
    endpoint. *)
Definition answer (o : outcome) : result string :=
  match o with
  | Reply r => first_choice r
  | Failure e => Raise (CompletionError e)
  end.

End OpenAI.

(** ** The menu chat bot: [demo/session-3/food-chatflow.ipynb] *)

Module FoodChat.
Import OpenAI.

(** The prompt templates, with the fields of [str.format] as arguments. *)
Definition reasoning_step_template (request menu_items : string) : string :=
  ("
    Your task is to answer questions factually about a food menu, provided below and delimited by +++++. The user request is provided here: ")
  ++ request
  ++ ("

    Step 1: The first step is to check if the user is asking a question related to any type of food (even if that food item is not on the menu). If the question is about any type of food, we move on to Step 2 and ignore the rest of Step 1. If the question is not about food, then we send a response: " ++ dquote ++ "Sorry! I cannot help with that. Please let me know if you have a question about our food menu." ++ dquote ++ "

    Step 2: In this step, we check that the user question is relevant to any of the items on the food menu. You should check that the food item exists in our menu first. If it doesn't exist then send a kind response to the user that the item doesn't exist in our menu and then include a list of available but similar food items without any other details (e.g., price). The food items available are provided below and delimited by +++++:

    +++++
    ")
  ++ menu_items
  ++ ("
    +++++

    Step 3: If the item exists in our food menu and the user is requesting specific information, provide that relevant information to the user using the food menu. Make sure to use a friendly tone and keep the response concise.

    Perform the following reasoning steps to send a response to the user:
    Step 1: <Step 1 reasoning>
    Step 2: <Step 2 reasoning>
    Response to the user (only output the final response): <response to user>
    ").

Definition extraction_step_template (reasoning : string) : string :=
  ("
    Extract the final response from delimited by ###.

    ###
    ")
  ++ reasoning
  ++ (". 
    ###

    Only output what comes after " ++ dquote ++ "Response to the user:" ++ dquote ++ ".
    ").

Definition refinement_step_template (final_response : string) : string :=
  ("
    Perform the following refinement steps on the final output delimited by ###.

    1). Shorten the text to one sentence
    2). Use a friendly tone

    ###
    ")
  ++ final_response
  ++ ("
    ###
    ").

Definition verification_step_template (user_question refined_response menu_items : string) : string :=
  ("
    Your task is to check that the refined response (delimited by ###) is providing a factual response based on the user question (delimited by @@@) and the menu below (delimited by +++++). If yes, just output the refined response in its original form (without the delimiters). If no, then make the correction to the response and return the new response only.

    User question: @@@ ")
  ++ user_question
  ++ (" @@@

    Refined response: ### ")
  ++ refined_response
  ++ (" ###

    +++++
    ")
  ++ menu_items
  ++ ("
    +++++
    ").

Definition menu_items : string :=
  "
Menu: Kids Menu    
Food Item: Mini Cheeseburger
Price: $6.99
Vegan: N
Popularity: 4/5
Included: Mini beef patty, cheese, lettuce, tomato, and fries.

Menu: Appetizers
Food Item: Loaded Potato Skins
Price: $8.99
Vegan: N
Popularity: 3/5
Included: Crispy potato skins filled with cheese, bacon bits, and served with sour cream.

Menu: Appetizers
Food Item: Bruschetta
Price: $7.99
Vegan: Y
Popularity: 4/5
Included: Toasted baguette slices topped with fresh tomatoes, basil, garlic, and balsamic glaze.

Menu: Main Menu
Food Item: Grilled Chicken Caesar Salad
Price: $12.99
Vegan: N
Popularity: 4/5
Included: Grilled chicken breast, romaine lettuce, Parmesan cheese, croutons, and Caesar dressing.

Menu: Main Menu
Food Item: Classic Cheese Pizza
Price: $10.99
Vegan: N
Popularity: 5/5
Included: Thin-crust pizza topped with tomato sauce, mozzarella cheese, and fresh basil.

Menu: Main Menu
Food Item: Spaghetti Bolognese
Price: $14.99
Vegan: N
Popularity: 4/5
Included: Pasta tossed in a savory meat sauce made with ground beef, tomatoes, onions, and herbs.

Menu: Vegan Options
Food Item: Veggie Wrap
Price: $9.99
Vegan: Y
Popularity: 3/5
Included: Grilled vegetables, hummus, mixed greens, and a wrap served with a side of sweet potato fries.

Menu: Vegan Options
Food Item: Vegan Beyond Burger
Price: $11.99
Vegan: Y
Popularity: 4/5
Included: Plant-based patty, vegan cheese, lettuce, tomato, onion, and a choice of regular or sweet potato fries.

Menu: Desserts
Food Item: Chocolate Lava Cake
Price: $6.99
Vegan: N
Popularity: 5/5
Included: Warm chocolate cake with a gooey molten center, served with vanilla ice cream.

Menu: Desserts
Food Item: Fresh Berry Parfait
Price: $5.99
Vegan: Y
Popularity: 4/5
Included: Layers of mixed berries, granola, and vegan coconut yogurt.
".

(** What a notebook cell can hand back: a string, or the display object
    [IPython.display.Markdown(data)]. *)
Inductive pyobject : Type :=
| PyStr (s : string)
| Markdown (data : string).

(** The request [generate_response] sends for a prompt. *)
Definition chat_request (prompt : string) : request :=
  {| model := "gpt-4o"; messages := [ {| role := "user"; content := prompt |} ] |}.

Section Chain.

Variable ep : endpoint.

(** [generate_response(prompt)] of the chat notebook. *)
Definition generate_response (prompt : string) : M history string :=
  response <- create ep (chat_request prompt) ;;
  match choices response with
  | c :: _ => ret (content (choice_message c))
  | [] => raise IndexError
  end.

Definition reasoning_step (user_query menu_items : string) : M history string :=
  let prompt := reasoning_step_template user_query menu_items in
  response <- generate_response prompt ;;
  ret response.

Definition extraction_step (reasoning : string) : M history string :=
  let prompt := extraction_step_template reasoning in
  response <- generate_response prompt ;;
  ret response.

Definition refinement_step (final_response : string) : M history string :=
  let prompt := refinement_step_template final_response in
  response <- generate_response prompt ;;
  ret response.

Definition verification_step (user_question refined_response menu_items : string)
  : M history string :=
  let prompt := verification_step_template user_question refined_response menu_items in
  response <- generate_response prompt ;;
  ret response.

Definition generate_food_chatbot (user_query menu_items : string) : M history pyobject :=
  reasoning <- reasoning_step user_query menu_items ;;
  extraction <- extraction_step reasoning ;;
  refinement <- refinement_step extraction ;;
  verification <- verification_step user_query refinement menu_items ;;
  ret (Markdown verification).

(** *** The chain as the specification words it

    A linear machine over one string of state.  Each transition composes
    the prompt of its stage from the current state and the fixed inputs,
    sends it, and the reply becomes the state of the next stage; the state
    after the last stage goes back to the caller. *)

Inductive stage : Type := Reasoning | Extraction | Refinement | Verification.

Definition compose (st : stage) (user_query menu_items state : string) : string :=
  match st with
  | Reasoning => reasoning_step_template state menu_items
  | Extraction => extraction_step_template state
  | Refinement => refinement_step_template state
  | Verification => verification_step_template user_query state menu_items
  end.

Fixpoint run_stages (stages : list stage) (user_query menu_items state : string)
  : M history string :=
  match stages with
  | [] => ret state
  | st :: rest =>
      out <- generate_response (compose st user_query menu_items state) ;;
      run_stages rest user_query menu_items out
  end.

Definition chain_stages : list stage := [Reasoning; Extraction; Refinement; Verification].

Definition chain_spec (user_query menu_items : string) : M history pyobject :=
  out <- run_stages chain_stages user_query menu_items user_query ;;
  ret (PyStr out).

End Chain.

(** *** Vocabulary of the statements about the chain *)

(** The four prompts a memoryless endpoint is sent by the chain. *)
Definition chain_prompts (f : string -> string) (user_query menu : string) : list string :=
  let p1 := reasoning_step_template user_query menu in
  let p2 := extraction_step_template (f p1) in
  let p3 := refinement_step_template (f p2) in
  let p4 := verification_step_template user_query (f p3) menu in
  [p1; p2; p3; p4].

(** The four requests of a chain whose first three stages were answered
    [reasoning], [extraction] and [refinement]. *)
Definition chain_requests (user_query menu reasoning extraction refinement : string)
  : list request :=
  [ chat_request (reasoning_step_template user_query menu);
    chat_request (extraction_step_template reasoning);
    chat_request (refinement_step_template extraction);
    chat_request (verification_step_template user_query refinement menu) ].

(** An endpoint that answers every request with an empty list of choices. *)
Definition speechless : endpoint := fun _ => Reply {| choices := [] |}.

(** The query of the notebook's last cell, and two endpoints to run it
    against: one that answers every prompt with the same words, one that is
    out of quota. *)
Definition cheeseburger : string := "What is the price of the cheeseburger?".

Definition parrot : endpoint := stateless (fun _ => "Our Mini Cheeseburger is $6.99!").

Definition out_of_quota : endpoint := fun _ => Failure RateLimitError.

End FoodChat.

(** ** Python built-ins used by the notebooks *)

Module Py.

(** [ord(c)]: the code of a character.  Strings are modelled with the
    characters of code 0 to 255. *)
Definition ord (c : ascii) : N := N_of_ascii c.

(** [str(n)] for a non-negative integer: its decimal digits. *)
Definition str (n : N) : string := NilZero.string_of_uint (N.to_uint n).

(** [sep.join(l)]. *)
Fixpoint join (sep : string) (l : list string) : string :=
  match l with
  | [] => EmptyString
  | x :: rest =>
      match rest with
      | [] => x
      | _ :: _ => x ++ sep ++ join sep rest
      end
  end.

Fixpoint range_from (fuel start stop step : nat) : list nat :=
  match fuel with
  | O => []
  | S fuel' =>
      if Nat.ltb start stop then start :: range_from fuel' (start + step) stop step else []
  end.

(** [range(start, stop, step)] for a positive step (Python refuses a zero
    step): at most [stop - start] values are produced. *)
Definition range (start stop step : nat) : list nat :=
  range_from (stop - start) start stop step.

(** [l[i:j]] for indices that are not negative: the slice is clipped to the
    list. *)
Definition slice {A : Type} (l : list A) (i j : nat) : list A :=
  firstn (j - i) (skipn i l).

(** The line feed of the literal with a backslash and an n. *)
Definition newline : string := String (ascii_of_nat 10) EmptyString.

(** [random]: a generator is the sequence of the raw numbers it is going to
    produce, and [randint(a, b)] maps the next one into [a..b]. *)
Definition generator : Type := nat -> N.

Definition randint_value (a b raw : N) : N := (a + raw mod (b - a + 1))%N.

Definition advance (g : generator) : generator := fun n => g (S n).

(** The next [n] values [randint(a, b)] returns, and the generator after
    [n] calls. *)
Fixpoint draws (a b : N) (g : generator) (n : nat) : list N :=
  match n with
  | O => []
  | S n' => randint_value a b (g 0) :: draws a b (advance g) n'
  end.

Fixpoint skip (n : nat) (g : generator) : generator :=
  match n with
  | O => g
  | S n' => skip n' (advance g)
  end.

(** Monadic helpers: a loop over a list, and a list comprehension whose
    element expression has effects. *)
Fixpoint for_each {S A : Type} (l : list A) (body : A -> M S unit) : M S unit :=
  match l with
  | [] => ret tt
  | x :: rest => _ <- body x ;; for_each rest body
  end.

Fixpoint comprehension {S A B : Type} (f : A -> M S B) (l : list A) : M S (list B) :=
  match l with
  | [] => ret []
  | x :: rest =>
      y <- f x ;;
      ys <- comprehension f rest ;;
      ret (y :: ys)
  end.

End Py.

(** ** The table of papers *)

Module Pandas.

(** A cell of an object column: a string, or the missing value [NaN]
    ([None] here), which is how [read_csv] reads an empty field. *)
Definition cell : Type := option string.

Definition isna (c : cell) : bool :=
  match c with
  | None => true
  | Some _ => false
  end.

(** [str(x)] of a cell. *)
Definition str (c : cell) : string :=
  match c with
  | Some s => s
  | None => "nan"
  end.

Section DataFrame.

Variables row column : Type.
Variable get : column -> row -> cell.

(** Modelled from the spec: [DataFrame.dropna(subset=...)] is the library's
    code, not the repository's.  It drops the rows in which a column of
    [subset] is missing and keeps the others in their order. *)
Definition dropna (subset : list column) (df : list row) : list row :=
  filter (fun r => forallb (fun c => negb (isna (get c r))) subset) df.

(** The rows [dropna] leaves out. *)
Definition dropped (subset : list column) (df : list row) : list row :=
  filter (fun r => negb (forallb (fun c => negb (isna (get c r))) subset)) df.

(** [DataFrame.to_dict(orient=...)] with the records orientation: one
    dictionary per row, in order. *)
Definition to_dict_records (df : list row) : list row := df.

End DataFrame.

End Pandas.

(** ** The vector store *)

Module Chroma.

Section Collection.

Variables metadata embedding : Type.

(** The metric belongs to the store; a smaller distance is a greater
    similarity. *)
Variable distance : embedding -> embedding -> Q.

Record entry : Type :=
  { id : string; document : string; meta : metadata; vector : embedding }.

Definition collection : Type := list entry.

(** Modelled from the spec: [Collection.upsert] is the library's code.  An
    upsert is an insert-or-update keyed by id: an entry with the id is
    overwritten where it stands, a new id is added. *)
Fixpoint upsert_one (e : entry) (c : collection) : collection :=
  match c with
  | [] => [e]
  | x :: rest =>
      if String.eqb (id x) (id e) then e :: rest else x :: upsert_one e rest
  end.

Fixpoint zip_entries (ids : list string) (metadatas : list metadata)
  (documents : list string) (embeddings : list embedding) : option (list entry) :=
  match ids, metadatas, documents, embeddings with
  | [], [], [], [] => Some []
  | i :: ids', m :: metadatas', d :: documents', v :: embeddings' =>
      match zip_entries ids' metadatas' documents' embeddings' with
      | Some es => Some ({| id := i; document := d; meta := m; vector := v |} :: es)
      | None => None
      end
  | _, _, _, _ => None
  end.

Definition upsert_all (es : list entry) (c : collection) : collection :=
  fold_left (fun acc e => upsert_one e acc) es c.

(** Whether a list of ids holds an id twice. *)
Fixpoint repeats (ids : list string) : bool :=
  match ids with
  | [] => false
  | i :: rest => existsb (String.eqb i) rest || repeats rest
  end.

(** Modelled from the spec: [collection.upsert(ids=, metadatas=,
    documents=, embeddings=)] is the library's code.  The library checks a
    call before it stores anything, and on this the spec is silent: a call
    without ids is refused, a call that holds an id twice is refused, and
    so are argument lists of unequal length.  A call that is accepted is
    read position by position and its entries are upserted in order. *)
Definition upsert (ids : list string) (metadatas : list metadata)
  (documents : list string) (embeddings : list embedding) (c : collection)
  : result collection :=
  match ids with
  | [] => Raise ValueError
  | _ :: _ =>
      if repeats ids then Raise DuplicateIDError
      else
        match zip_entries ids metadatas documents embeddings with
        | Some es => Ok (upsert_all es c)
        | None => Raise ValueError
        end
  end.

(** The entries of a collection by non-decreasing distance to a query
    vector, ranked by insertion. *)
Fixpoint insert_by (q : embedding) (e : entry) (ranked : list entry) : list entry :=
  match ranked with
  | [] => [e]
  | x :: rest =>
      if Qle_bool (distance q (vector e)) (distance q (vector x))
      then e :: x :: rest
      else x :: insert_by q e rest
  end.

Definition nearest (q : embedding) (c : collection) : list entry :=
  fold_right (insert_by q) [] c.

Record query_result : Type :=
  { ids : list (list string);
    documents : list (list string);
    metadatas : list (list metadata);
    distances : list (list Q) }.

(** Modelled from the spec: [Collection.query] is the library's code.
    Each query text is embedded by the embedding function of the
    collection, the stored vectors are ranked by their distance to it,
    closest first, and the first [n_results] are returned, one list per
    query text. *)
Definition query (embedding_function : list string -> list embedding)
  (query_texts : list string) (n_results : nat) (c : collection) : query_result :=
  let hits := map (fun q => (q, firstn n_results (nearest q c)))
                  (embedding_function query_texts) in
  {| ids := map (fun h => map id (snd h)) hits;
     documents := map (fun h => map document (snd h)) hits;
     metadatas := map (fun h => map meta (snd h)) hits;
     distances := map (fun h => map (fun e => distance (fst h) (vector e)) (snd h)) hits |}.

(** *** Vocabulary of the statements about the store *)

Definition has_id (i : string) (e : entry) : bool := String.eqb (id e) i.

(** The entries a collection holds under an id. *)
Definition entries_with (i : string) (c : collection) : list entry :=
  filter (has_id i) c.


(** [a] is at least as similar to the query vector [q] as [b]. *)
Definition closer (q : embedding) (a b : entry) : Prop :=
  (distance q (vector a) <= distance q (vector b))%Q.

End Collection.

End Chroma.

(** ** Retrieval-augmented title suggestion: the RAG notebook *)

Module Rag.
Import OpenAI Pandas.

(** The columns of the data set and one row of it. *)
Inductive column : Type := ColTitle | ColDescription | ColPaperURL | ColTweetURL | ColAbstract.

Record paper : Type :=
  { Title : cell; Description : cell; PaperURL : cell; TweetURL : cell; Abstract : cell }.

Definition get (c : column) (r : paper) : cell :=
  match c with
  | ColTitle => Title r
  | ColDescription => Description r
  | ColPaperURL => PaperURL r
  | ColTweetURL => TweetURL r
  | ColAbstract => Abstract r
  end.

(** [dict(url=..., abstract=...)]. *)
Record metadata : Type := { url : cell; abstract : cell }.

(** *** Step 1: load the data set

    [csv] is what [pd.read_csv] returns for the file. *)
Definition ml_papers (csv : list paper) : list paper :=
  dropna get [ColTitle; ColDescription] csv.

Definition ml_papers_dict (csv : list paper) : list paper :=
  to_dict_records (ml_papers csv).

(** The f-string of the last cell, with its two fields as arguments. *)
Definition prompt_template (user_query short_titles : string) : string :=
  "
Your main task is to generate 5 SUGGESTED_TITLES based for the PAPER_TITLE

You should mimic a similar style and length as SHORT_TITLES but PLEASE DO NOT include titles from SHORT_TITLES in the SUGGESTED_TITLES, only generate appropriate and factual versions of the PAPER_TILE.

PAPER_TITLE: "
  ++ user_query
  ++ "

SHORT_TITLES: "
  ++ short_titles
  ++ "

SUGGESTED_TITLES:
".

(** The request [generate_response] sends for a prompt. *)
Definition chat_request (prompt : string) : request :=
  {| model := "gpt-4o-mini"; messages := [ {| role := "user"; content := prompt |} ] |}.

Section Pipeline.

Variable embedding : Type.
(** [embedding_model.encode] on one text. *)
Variable encode_text : string -> embedding.
Variable distance : embedding -> embedding -> Q.
Variable ep : endpoint.

(** The arguments of one [collection.upsert] call. *)
Record upsert_call : Type :=
  { call_ids : list string;
    call_metadatas : list metadata;
    call_documents : list string;
    call_embeddings : list embedding }.

(** What the notebook's cells share: the random generator, the persistent
    collection, the requests sent to the completion endpoint, and a record
    of the calls the cells make to the embedding model and to [upsert]. *)
Record world : Type :=
  { rng : Py.generator;
    collection : Chroma.collection metadata embedding;
    sent : history;
    encoded : list (list string);
    upserted : list upsert_call }.

(** [random.randint(a, b)]. *)
Definition randint (a b : N) : M world N :=
  fun w =>
    (Ok (Py.randint_value a b (rng w 0)),
     {| rng := Py.advance (rng w); collection := collection w; sent := sent w;
        encoded := encoded w; upserted := upserted w |}).

(** [embedding_model.encode(texts)]: one vector per text. *)
Definition encode (texts : list string) : M world (list embedding) :=
  fun w =>
    (Ok (map encode_text texts),
     {| rng := rng w; collection := collection w; sent := sent w;
        encoded := encoded w ++ [texts]; upserted := upserted w |}).

Definition collection_upsert (ids : list string) (metadatas : list metadata)
  (documents : list string) (embeddings : list embedding) : M world unit :=
  fun w =>
    let call := {| call_ids := ids; call_metadatas := metadatas;
                   call_documents := documents; call_embeddings := embeddings |} in
    match Chroma.upsert ids metadatas documents embeddings (collection w) with
    | Ok c =>
        (Ok tt,
         {| rng := rng w; collection := c; sent := sent w;
            encoded := encoded w; upserted := upserted w ++ [call] |})
    | Raise e => (Raise e, w)
    end.

(** [MyEmbeddingFunction.__call__]. *)
Definition embed_fn (input : list string) : list embedding := map encode_text input.

Definition collection_query (query_texts : list string) (n_results : nat)
  : M world (Chroma.query_result metadata) :=
  fun w => (Ok (Chroma.query distance embed_fn query_texts n_results (collection w)), w).

Definition chat_completions_create (req : request) : M world response :=
  fun w =>
    match create ep req (sent w) with
    | (r, h) =>
        (r, {| rng := rng w; collection := collection w; sent := h;
               encoded := encoded w; upserted := upserted w |})
    end.

(** [generate_response(prompt)] of the RAG notebook. *)
Definition generate_response (prompt : string) : M world string :=
  response <- chat_completions_create (chat_request prompt) ;;
  match choices response with
  | c :: _ => ret (content (choice_message c))
  | [] => raise IndexError
  end.

(** *** Step 2: index the titles in batches *)

Definition batch_size : nat := 50.

(** One element of [batch_titles]. *)
Definition batch_title (p : paper) : string :=
  if negb (String.eqb (Pandas.str (Title p)) EmptyString)
  then Pandas.str (Title p)
  else "No Title".

(** [sum(ord(c) + random.randint(1, 10000) for c in title)], the running
    total in [acc]. *)
Fixpoint id_sum (title : string) (acc : N) : M world N :=
  match title with
  | EmptyString => ret acc
  | String c rest =>
      r <- randint 1 10000 ;;
      id_sum rest (acc + (Py.ord c + r))%N
  end.

(** One element of [batch_ids]. *)
Definition batch_id (p : paper) : M world string :=
  match Title p with
  | Some title =>
      total <- id_sum title 0%N ;;
      ret (Py.str total)
  | None => raise TypeError
  end.

Definition batch_meta (p : paper) : metadata :=
  {| url := PaperURL p; abstract := Abstract p |}.

(** The body of the loop for one batch. *)
Definition index_batch (batch : list paper) : M world unit :=
  let batch_titles := map batch_title batch in
  batch_ids <- Py.comprehension batch_id batch ;;
  let batch_metadata := map batch_meta batch in
  batch_embeddings <- encode batch_titles ;;
  collection_upsert batch_ids batch_metadata batch_titles batch_embeddings.

(** The batches the loop visits. *)
Definition batches (papers : list paper) : list (list paper) :=
  map (fun i => Py.slice papers i (i + batch_size))
      (Py.range 0 (length papers) batch_size).

(** The indexing loop. *)
Definition index_papers (papers : list paper) : M world unit :=
  Py.for_each (Py.range 0 (length papers) batch_size)
    (fun i =>
       let i_end := Nat.min (i + batch_size) (length papers) in
       let batch := Py.slice papers i (i + batch_size) in
       index_batch batch).

(** *** Step 3: retrieve and compose the prompt *)

(** [collection.query(query_texts=[text], n_results=k)] and the documents
    found for the one query text, [results['documents'][0]]. *)
Definition retrieve (text : string) (k : nat) : M world (list string) :=
  results <- collection_query [text] k ;;
  match Chroma.documents results with
  | docs :: _ => ret docs
  | [] => raise IndexError
  end.

(** The prompt of the last cell from the title and the retrieved titles. *)
Definition compose_prompt (user_query : string) (retrieved : list string) : string :=
  let short_titles := Py.join Py.newline retrieved in
  prompt_template user_query short_titles.

(** The last cell: retrieve ten titles, compose the prompt, ask for
    suggestions. *)
Definition suggest_titles (user_query : string) : M world (string * string) :=
  retrieved <- retrieve user_query 10 ;;
  let prompt := compose_prompt user_query retrieved in
  responses <- generate_response prompt ;;
  let suggested_titles :=
    Py.join EmptyString
      (map (fun r => String r EmptyString) (list_ascii_of_string responses)) in
  ret (suggested_titles, prompt).

(** *** Vocabulary of the statements about the pipeline *)

(** The world after the requests [h] have been sent. *)
Definition with_sent (h : history) (w : world) : world :=
  {| rng := rng w; collection := collection w; sent := h;
     encoded := encoded w; upserted := upserted w |}.

Definition with_rng (g : Py.generator) (w : world) : world :=
  {| rng := g; collection := collection w; sent := sent w;
     encoded := encoded w; upserted := upserted w |}.

(** The id of the specification: the decimal string of the sum, over the
    characters of the title, of the character code plus the offset drawn
    for the character. *)
Fixpoint code_sum (title : string) (offsets : list N) : N :=
  match title, offsets with
  | String c rest, r :: offsets' => ((Py.ord c + r) + code_sum rest offsets')%N
  | _, _ => 0%N
  end.

(** The characters the id of a paper is summed over. *)
Definition title_chars (p : paper) : string :=
  match Title p with
  | Some title => title
  | None => EmptyString
  end.

Definition has_title (p : paper) : Prop := Title p <> None.


(** The id a paper gets from a generator, and the generator left for the
    next paper. *)
Definition id_of (p : paper) (g : Py.generator) : string :=
  Py.str (code_sum (title_chars p)
            (Py.draws 1 10000 g (String.length (title_chars p)))).

Definition rng_past (p : paper) (g : Py.generator) : Py.generator :=
  Py.skip (String.length (title_chars p)) g.

Fixpoint ids_of (batch : list paper) (g : Py.generator) : list string :=
  match batch with
  | [] => []
  | p :: rest => id_of p g :: ids_of rest (rng_past p g)
  end.

Fixpoint rng_after (batch : list paper) (g : Py.generator) : Py.generator :=
  match batch with
  | [] => g
  | p :: rest => rng_after rest (rng_past p g)
  end.

(** The entry a paper is indexed as. *)
Definition entry_of (p : paper) (g : Py.generator) : Chroma.entry metadata embedding :=
  {| Chroma.id := id_of p g;
     Chroma.document := batch_title p;
     Chroma.meta := batch_meta p;
     Chroma.vector := encode_text (batch_title p) |}.

Fixpoint entries_of (batch : list paper) (g : Py.generator)
  : list (Chroma.entry metadata embedding) :=
  match batch with
  | [] => []
  | p :: rest => entry_of p g :: entries_of rest (rng_past p g)
  end.

(** The [upsert] call made for a batch, and the world after the batch. *)
Definition call_of (batch : list paper) (g : Py.generator) : upsert_call :=
  {| call_ids := ids_of batch g;
     call_metadatas := map batch_meta batch;
     call_documents := map batch_title batch;
     call_embeddings := map encode_text (map batch_title batch) |}.

Definition after_batch (w : world) (batch : list paper) : world :=
  {| rng := rng_after batch (rng w);
     collection := Chroma.upsert_all (entries_of batch (rng w)) (collection w);
     sent := sent w;
     encoded := encoded w ++ [map batch_title batch];
     upserted := upserted w ++ [call_of batch (rng w)] |}.

Definition after_batches (w : world) (bs : list (list paper)) : world :=
  fold_left after_batch bs w.

(** Whether the store accepts the [upsert] call of every batch of a list:
    no batch gets an id twice. *)
Fixpoint all_accepted (bs : list (list paper)) (g : Py.generator) : bool :=
  match bs with
  | [] => true
  | b :: rest => negb (Chroma.repeats (ids_of b g)) && all_accepted rest (rng_after b g)
  end.

(** The world after a batch whose [upsert] call the store refused: the
    ids are drawn and the titles embedded, nothing is stored. *)
Definition after_refused (w : world) (batch : list paper) : world :=
  {| rng := rng_after batch (rng w);
     collection := collection w;
     sent := sent w;
     encoded := encoded w ++ [map batch_title batch];
     upserted := upserted w |}.

(** The [upsert] calls made for a list of batches. *)
Fixpoint calls_of (bs : list (list paper)) (g : Py.generator) : list upsert_call :=
  match bs with
  | [] => []
  | b :: rest => call_of b g :: calls_of rest (rng_after b g)
  end.

(** The sum of the character codes of a title. *)
Fixpoint ord_sum (title : string) : N :=
  match title with
  | EmptyString => 0%N
  | String c rest => (Py.ord c + ord_sum rest)%N
  end.

(** The number of title characters of a list of papers. *)
Fixpoint total_chars (papers : list paper) : nat :=
  match papers with
  | [] => 0
  | p :: rest => String.length (title_chars p) + total_chars rest
  end.

(** The vector of an entry is the embedding of its document. *)
Definition embeds (e : Chroma.entry metadata embedding) : Prop :=
  Chroma.vector e = encode_text (Chroma.document e).

(** The entries [collection.query] ranks first for a text. *)
Definition ranked (text : string) (k : nat) (w : world)
  : list (Chroma.entry metadata embedding) :=
  firstn k (Chroma.nearest distance (encode_text text) (collection w)).

End Pipeline.

(** A small instance to run the pipeline on: a text is embedded as its
    length, and the distance of two embeddings is the square of their
    difference. *)
Definition toy_encode (text : string) : Z := Z.of_nat (String.length text).

Definition toy_distance (a b : Z) : Q := inject_Z ((a - b) * (a - b)).

(** Rows in the shape of the data set: two complete ones, one without a
    description, one with an empty title text, and one whose title is
    missing. *)
Definition llemma : paper :=
  {| Title := Some "Llemma";
     Description := Some "an LLM for mathematics";
     PaperURL := Some "https://arxiv.org/abs/2310.10631";
     TweetURL := Some "https://x.com/zhangir_azerbay/status/1714098025956864031";
     Abstract := Some "We present Llemma, a large language model for mathematics." |}.

Definition self_rag : paper :=
  {| Title := Some "Self-RAG";
     Description := Some "presents a new retrieval-augmented framework";
     PaperURL := Some "https://arxiv.org/abs/2310.11511";
     TweetURL := Some "https://x.com/AkariAsai/status/1715110277077962937";
     Abstract := None |}.

Definition undescribed : paper :=
  {| Title := Some "GenBench";
     Description := None;
     PaperURL := Some "https://www.nature.com/articles/s42256-023-00729-y";
     TweetURL := None;
     Abstract := None |}.

Definition blank_title (u : string) : paper :=
  {| Title := Some EmptyString;
     Description := Some "a paper whose title is the empty text";
     PaperURL := Some u;
     TweetURL := None;
     Abstract := None |}.

Definition untitled : paper :=
  {| Title := None;
     Description := Some "a paper without a title";
     PaperURL := None;
     TweetURL := None;
     Abstract := None |}.

Definition titled (t : string) : paper :=
  {| Title := Some t;
     Description := Some "a paper";
     PaperURL := None;
     TweetURL := None;
     Abstract := None |}.

(** Fifty papers that fill a batch, with titles of different lengths after
    a first one whose title is the empty text, and a table of fifty-one
    papers of which the first and the last have an empty title. *)
Definition letters (n : nat) : string := string_of_list_ascii (repeat "a"%char n).

Definition full_batch : list paper :=
  blank_title "first" :: map (fun n => titled (letters n)) (seq 1 49).

Definition two_batches : list paper := full_batch ++ [blank_title "second"].

Definition sample_csv : list paper :=
  [llemma; undescribed; blank_title "first"; self_rag; untitled; blank_title "second"].

(** The prompt the notebook printed for its query and the ten titles it
    retrieved. *)
Definition notebook_query : string :=
  "S3Eval: A Synthetic, Scalable, Systematic Evaluation Suite for Large Language Models".

Definition notebook_retrieved : list string :=
  [ "Pythia: A Suite for Analyzing Large Language Models Across Training and Scaling";
    "ChemCrow: Augmenting large-language models with chemistry tools";
    "A Survey of Large Language Models";
    "LLaMA: Open and Efficient Foundation Language Models";
    "SparseGPT: Massive Language Models Can Be Accurately Pruned In One-Shot";
    "REPLUG: Retrieval-Augmented Black-Box Language Models";
    "LLaMA-Adapter: Efficient Fine-tuning of Language Models with Zero-init Attention";
    "Auditing large language models: a three-layered approach";
    "Fine-Tuning Language Models with Just Forward Passes";
    "DERA: Enhancing Large Language Model Completions with Dialog-Enabled Resolving Agents" ].

Definition notebook_prompt : string :=
  "
Your main task is to generate 5 SUGGESTED_TITLES based for the PAPER_TITLE

You should mimic a similar style and length as SHORT_TITLES but PLEASE DO NOT include titles from SHORT_TITLES in the SUGGESTED_TITLES, only generate appropriate and factual versions of the PAPER_TILE.

PAPER_TITLE: S3Eval: A Synthetic, Scalable, Systematic Evaluation Suite for Large Language Models

SHORT_TITLES: Pythia: A Suite for Analyzing Large Language Models Across Training and Scaling
ChemCrow: Augmenting large-language models with chemistry tools
A Survey of Large Language Models
LLaMA: Open and Efficient Foundation Language Models
SparseGPT: Massive Language Models Can Be Accurately Pruned In One-Shot
REPLUG: Retrieval-Augmented Black-Box Language Models
LLaMA-Adapter: Efficient Fine-tuning of Language Models with Zero-init Attention
Auditing large language models: a three-layered approach
Fine-Tuning Language Models with Just Forward Passes
DERA: Enhancing Large Language Model Completions with Dialog-Enabled Resolving Agents

SUGGESTED_TITLES:
".

(** A generator that always produces the same raw number, and one that
    differs from it in its first number only. *)
Definition steady : Py.generator := fun _ => 0%N.

Definition nudged : Py.generator := fun i => if Nat.eqb i 0 then 1%N else 0%N.

Definition empty_world : world Z :=
  {| rng := steady; collection := []; sent := []; encoded := []; upserted := [] |}.

End Rag.

(** * Properties *)

(** ** The monad *)

Lemma bind_ok {S A B : Type} (m : M S A) (k : A -> M S B) (s s' : S) (a : A) :
  m s = (Ok a, s') -> bind m k s = k a s'.
Proof. intros H. unfold bind. rewrite H. reflexivity. Qed.

Lemma bind_raise {S A B : Type} (m : M S A) (k : A -> M S B) (s s' : S) (e : exn) :
  m s = (Raise e, s') -> bind m k s = (Raise e, s').
Proof. intros H. unfold bind. rewrite H. reflexivity. Qed.

Lemma bind_ret_r {S A : Type} (m : M S A) (s : S) : bind m ret s = m s.
Proof. unfold bind, ret. destruct (m s) as [[a | e] s']; reflexivity. Qed.

Lemma bind_assoc {S A B C : Type} (m : M S A) (k : A -> M S B) (k' : B -> M S C) (s : S) :
  bind (bind m k) k' s = bind m (fun a => bind (k a) k') s.
Proof. unfold bind. destruct (m s) as [[a | e] s']; reflexivity. Qed.

(** ** Python built-ins *)

Module PyFacts.
Import Py.

Lemma to_uint_not_nil (n : N) : N.to_uint n <> Decimal.Nil.
Proof.
  intros E. pose proof (f_equal N.of_uint E) as E'.
  rewrite DecimalN.Unsigned.of_to in E'. simpl in E'. subst n. discriminate E.
Qed.

(** Distinct numbers have distinct decimal strings. *)
Lemma str_inj (a b : N) : str a = str b -> a = b.
Proof.
  unfold str. intros E.
  apply (f_equal NilZero.uint_of_string) in E.
  rewrite !NilZero.usu in E by apply to_uint_not_nil.
  injection E as E. apply (f_equal N.of_uint) in E.
  now rewrite !DecimalN.Unsigned.of_to in E.
Qed.

Lemma randint_value_range (a b raw : N) :
  (a <= b)%N -> (a <= randint_value a b raw <= b)%N.
Proof.
  intros Hab. unfold randint_value.
  assert (H : (raw mod (b - a + 1) < b - a + 1)%N) by (apply N.mod_lt; lia).
  set (m := (raw mod (b - a + 1))%N) in *. lia.
Qed.

(** The slices taken at the indices of a range tile the list from the
    first index on. *)
Lemma range_slices {A : Type} (l : list A) (step : nat) :
  0 < step ->
  forall fuel start,
    length l - start <= fuel ->
    concat (map (fun i => slice l i (i + step)) (range_from fuel start (length l) step))
    = skipn start l.
Proof.
  intros Hstep. induction fuel as [ | fuel IH]; intros start Hfuel; simpl.
  - symmetry. apply skipn_all2. lia.
  - destruct (Nat.ltb start (length l)) eqn:Hlt.
    + simpl. rewrite IH by lia. unfold slice.
      replace (start + step - start) with step by lia.
      rewrite Nat.add_comm, <- skipn_skipn. apply firstn_skipn.
    + apply Nat.ltb_ge in Hlt. simpl. symmetry. apply skipn_all2. exact Hlt.
Qed.

(** Every slice of the range is within the list, so it is neither empty
    nor longer than the step. *)
Lemma range_slices_length {A : Type} (l : list A) (step : nat) :
  0 < step ->
  forall fuel start,
    Forall (fun b : list A => 1 <= length b <= step)
      (map (fun i => slice l i (i + step)) (range_from fuel start (length l) step)).
Proof.
  intros Hstep. induction fuel as [ | fuel IH]; intros start; simpl.
  - constructor.
  - destruct (Nat.ltb start (length l)) eqn:Hlt; [ | constructor ].
    apply Nat.ltb_lt in Hlt. simpl. constructor; [ | apply IH ].
    unfold slice. rewrite length_firstn, length_skipn. lia.
Qed.

End PyFacts.

(** ** The data set loader *)

Module PandasFacts.
Import Pandas.

Section DataFrame.

Variables row column : Type.
Variable get : column -> row -> cell.

Lemma dropna_In (subset : list column) (df : list row) (r : row) :
  In r (dropna get subset df) <->
  In r df /\ (forall c, In c subset -> isna (get c r) = false).
Proof.
  unfold dropna. rewrite filter_In, forallb_forall.
  split; intros [Hin Hall]; (split; [ exact Hin | ]); intros c Hc.
  - apply negb_true_iff. apply Hall. exact Hc.
  - apply negb_true_iff. apply Hall. exact Hc.
Qed.

Lemma dropped_In (subset : list column) (df : list row) (r : row) :
  In r (dropped get subset df) <->
  In r df /\ (exists c, In c subset /\ isna (get c r) = true).
Proof.
  unfold dropped. rewrite filter_In.
  split; intros [Hin H]; (split; [ exact Hin | ]).
  - apply negb_true_iff in H.
    destruct (existsb (fun c => isna (get c r)) subset) eqn:Hex.
    + apply existsb_exists in Hex. exact Hex.
    + exfalso. rewrite <- not_true_iff_false in H. apply H.
      apply forallb_forall. intros c Hc. apply negb_true_iff.
      destruct (isna (get c r)) eqn:Hna; [ | reflexivity ].
      rewrite <- Hex. symmetry. apply existsb_exists. exists c. now split.
  - destruct H as (c & Hc & Hna). apply negb_true_iff.
    apply not_true_iff_false. intros Hall.
    rewrite forallb_forall in Hall. specialize (Hall c Hc).
    rewrite Hna in Hall. discriminate.
Qed.

(** Every row is either kept or dropped. *)
Lemma dropna_length (subset : list column) (df : list row) :
  length (dropna get subset df) + length (dropped get subset df) = length df.
Proof.
  unfold dropna, dropped. induction df as [ | r df IH]; simpl.
  - reflexivity.
  - destruct (forallb (fun c => negb (isna (get c r))) subset); simpl; lia.
Qed.

End DataFrame.

End PandasFacts.

(** ** The vector store *)

Module ChromaFacts.
Import Chroma.

Section Collection.

Variables metadata embedding : Type.
Variable distance : embedding -> embedding -> Q.

Local Abbreviation entry := (entry metadata embedding).
Local Abbreviation collection := (collection metadata embedding).
Local Abbreviation ids_of := (map (@id metadata embedding)).
Local Abbreviation closer_to := (@closer metadata embedding distance).

Lemma has_id_true (i : string) (e : entry) : has_id i e = true <-> id e = i.
Proof. unfold has_id. apply String.eqb_eq. Qed.

Lemma has_id_false (i : string) (e : entry) : has_id i e = false <-> id e <> i.
Proof. unfold has_id. apply String.eqb_neq. Qed.

Lemma entries_with_absent (i : string) (c : collection) :
  ~ In i (ids_of c) -> entries_with i c = [].
Proof.
  unfold entries_with. induction c as [ | x c IH]; simpl; intros Hn.
  - reflexivity.
  - destruct (has_id i x) eqn:Hx.
    + exfalso. apply Hn. left. now apply has_id_true.
    + apply IH. intros Hin. apply Hn. now right.
Qed.

(** *** One upsert *)

Lemma upsert_one_ids (e : entry) (c : collection) (i : string) :
  In i (ids_of (upsert_one e c)) <-> i = id e \/ In i (ids_of c).
Proof.
  induction c as [ | x c IH]; simpl.
  - intuition.
  - destruct (String.eqb (id x) (id e)) eqn:Hx; simpl.
    + apply String.eqb_eq in Hx. rewrite Hx. intuition.
    + rewrite IH. intuition.
Qed.

Lemma upsert_one_NoDup (e : entry) (c : collection) :
  NoDup (ids_of c) -> NoDup (ids_of (upsert_one e c)).
Proof.
  induction c as [ | x c IH]; simpl; intros Hnd.
  - constructor; [ intros [] | constructor ].
  - inversion Hnd as [ | ? ? Hx Hc]; subst.
    destruct (String.eqb (id x) (id e)) eqn:Hxe; simpl.
    + apply String.eqb_eq in Hxe. rewrite <- Hxe. constructor; assumption.
    + apply String.eqb_neq in Hxe. constructor; [ | apply IH; exact Hc ].
      rewrite upsert_one_ids. intros [E | Hin]; [ now apply Hxe | now apply Hx ].
Qed.

(** After an upsert the id holds the upserted entry and nothing else. *)
Lemma upsert_one_lookup (e : entry) (c : collection) :
  NoDup (ids_of c) -> entries_with (id e) (upsert_one e c) = [e].
Proof.
  unfold entries_with. induction c as [ | x c IH]; simpl; intros Hnd.
  - now rewrite (proj2 (has_id_true (id e) e) eq_refl).
  - inversion Hnd as [ | ? ? Hx Hc]; subst.
    destruct (String.eqb (id x) (id e)) eqn:Hxe; simpl.
    + rewrite (proj2 (has_id_true (id e) e) eq_refl). f_equal.
      apply String.eqb_eq in Hxe. apply entries_with_absent. now rewrite <- Hxe.
    + unfold has_id at 1. rewrite Hxe. apply IH. exact Hc.
Qed.

(** The entries under the other ids stay as they are. *)
Lemma upsert_one_other (e : entry) (c : collection) (i : string) :
  i <> id e -> entries_with i (upsert_one e c) = entries_with i c.
Proof.
  unfold entries_with. intros Hi. induction c as [ | x c IH]; simpl.
  - now rewrite (proj2 (has_id_false i e)) by congruence.
  - destruct (String.eqb (id x) (id e)) eqn:Hxe; simpl.
    + apply String.eqb_eq in Hxe.
      rewrite (proj2 (has_id_false i e)) by congruence.
      now rewrite (proj2 (has_id_false i x)) by congruence.
    + now rewrite IH.
Qed.

(** Upserting an id again overwrites: only the last content counts. *)
Lemma upsert_one_twice (e1 e2 : entry) (c : collection) :
  id e1 = id e2 -> upsert_one e2 (upsert_one e1 c) = upsert_one e2 c.
Proof.
  intros E. induction c as [ | x c IH]; simpl.
  - rewrite E, String.eqb_refl. reflexivity.
  - rewrite <- E. destruct (String.eqb (id x) (id e1)) eqn:Hx; simpl.
    + rewrite E, String.eqb_refl. reflexivity.
    + rewrite <- E, Hx. now rewrite IH.
Qed.

Lemma upsert_one_length (e : entry) (c : collection) :
  length (upsert_one e c) =
  if in_dec string_dec (id e) (ids_of c) then length c else S (length c).
Proof.
  induction c as [ | x c IH]; simpl.
  - reflexivity.
  - destruct (String.eqb (id x) (id e)) eqn:Hx; simpl.
    + apply String.eqb_eq in Hx. destruct (string_dec (id x) (id e)); [ | contradiction ].
      reflexivity.
    + apply String.eqb_neq in Hx. destruct (string_dec (id x) (id e)); [ contradiction | ].
      rewrite IH. destruct (in_dec string_dec (id e) (ids_of c)); reflexivity.
Qed.

(** *** Ids held twice *)

Lemma existsb_eqb_In (i : string) (ids : list string) :
  existsb (String.eqb i) ids = true <-> In i ids.
Proof.
  rewrite existsb_exists. split.
  - intros (j & Hj & E). apply String.eqb_eq in E. now subst j.
  - intros H. exists i. split; [ exact H | apply String.eqb_refl ].
Qed.

Lemma repeats_false_NoDup (ids : list string) :
  repeats ids = false <-> NoDup ids.
Proof.
  induction ids as [ | i ids IH]; simpl.
  - split; [ constructor | reflexivity ].
  - rewrite orb_false_iff, IH. split.
    + intros [Hi Hnd]. constructor; [ | exact Hnd ].
      intros Hin. apply existsb_eqb_In in Hin. congruence.
    + intros Hnd. inversion Hnd as [ | ? ? Hi Hnd']; subst. split; [ | exact Hnd' ].
      apply not_true_iff_false. intros H. apply Hi. now apply existsb_eqb_In.
Qed.

(** A call for one entry is accepted. *)
Lemma upsert_single (i d : string) (m : metadata) (v : embedding) (c : collection) :
  upsert [i] [m] [d] [v] c =
  Ok (upsert_one {| id := i; document := d; meta := m; vector := v |} c).
Proof. reflexivity. Qed.

(** *** A batch of upserts *)


Lemma upsert_all_NoDup (es : list entry) (c : collection) :
  NoDup (ids_of c) -> NoDup (ids_of (upsert_all es c)).
Proof.
  revert c. induction es as [ | e es IH]; simpl; intros c Hnd.
  - exact Hnd.
  - apply IH. apply upsert_one_NoDup. exact Hnd.
Qed.



(** *** Ranking *)

Lemma closer_trans (q : embedding) : Relations_1.Transitive (closer_to q).
Proof. intros a b c Hab Hbc. unfold closer in *. eapply Qle_trans; eassumption. Qed.

Lemma not_closer (q : embedding) (a b : entry) :
  Qle_bool (distance q (vector a)) (distance q (vector b)) = false ->
  closer_to q b a.
Proof.
  intros H. unfold closer. apply Qlt_le_weak. apply Qnot_le_lt.
  intros Hle. apply Qle_bool_iff in Hle. congruence.
Qed.

Lemma insert_by_perm (q : embedding) (e : entry) (l : list entry) :
  Permutation (insert_by distance q e l) (e :: l).
Proof.
  induction l as [ | x l IH]; simpl.
  - apply Permutation_refl.
  - destruct (Qle_bool (distance q (vector e)) (distance q (vector x))).
    + apply Permutation_refl.
    + eapply perm_trans; [ apply perm_skip, IH | apply perm_swap ].
Qed.

Lemma insert_by_HdRel (q : embedding) (x e : entry) (l : list entry) :
  HdRel (closer_to q) x l -> closer_to q x e ->
  HdRel (closer_to q) x (insert_by distance q e l).
Proof.
  intros Hl Hxe. destruct l as [ | y l]; simpl.
  - constructor. exact Hxe.
  - destruct (Qle_bool (distance q (vector e)) (distance q (vector y))).
    + constructor. exact Hxe.
    + constructor. inversion Hl; assumption.
Qed.

Lemma insert_by_sorted (q : embedding) (e : entry) (l : list entry) :
  Sorted (closer_to q) l -> Sorted (closer_to q) (insert_by distance q e l).
Proof.
  induction l as [ | x l IH]; simpl; intros Hs.
  - repeat constructor.
  - inversion Hs as [ | ? ? Hl Hx]; subst.
    destruct (Qle_bool (distance q (vector e)) (distance q (vector x))) eqn:Hle.
    + constructor; [ exact Hs | ]. constructor. now apply Qle_bool_iff.
    + constructor; [ apply IH; exact Hl | ].
      apply insert_by_HdRel; [ exact Hx | ]. now apply not_closer.
Qed.

Lemma nearest_perm (q : embedding) (c : collection) :
  Permutation (nearest distance q c) c.
Proof.
  induction c as [ | x c IH]; simpl.
  - constructor.
  - eapply perm_trans; [ apply insert_by_perm | apply perm_skip, IH ].
Qed.

Lemma nearest_sorted (q : embedding) (c : collection) :
  StronglySorted (closer_to q) (nearest distance q c).
Proof.
  apply Sorted_StronglySorted; [ apply closer_trans | ].
  induction c as [ | x c IH]; simpl.
  - constructor.
  - apply insert_by_sorted. exact IH.
Qed.

Lemma firstn_incl {A : Type} (k : nat) (l : list A) : incl (firstn k l) l.
Proof.
  revert k. induction l as [ | x l IH]; intros [ | k]; simpl; intros y Hy;
    try contradiction.
  destruct Hy as [E | Hy]; [ now left | right; now apply (IH k) ].
Qed.

Lemma firstn_strongly_sorted {A : Type} (R : A -> A -> Prop) (k : nat) (l : list A) :
  StronglySorted R l -> StronglySorted R (firstn k l).
Proof.
  revert k. induction l as [ | x l IH]; intros [ | k] Hs; simpl; try constructor.
  - apply IH. now inversion Hs.
  - inversion Hs as [ | ? ? _ Hall]; subst.
    rewrite Forall_forall in *. intros y Hy. apply Hall.
    now apply (firstn_incl k l).
Qed.

(** The entries a query returns: at most [k], as many as the collection
    allows, all from the collection, closest first. *)
Lemma top_k (q : embedding) (k : nat) (c : collection) :
  let hits := firstn k (nearest distance q c) in
  length hits = Nat.min k (length c)
  /\ StronglySorted (closer_to q) hits
  /\ incl hits c.
Proof.
  intros hits. unfold hits. repeat split.
  - rewrite length_firstn. f_equal. apply Permutation_length, nearest_perm.
  - apply firstn_strongly_sorted, nearest_sorted.
  - intros e He. apply (Permutation_in _ (nearest_perm q c)).
    now apply (firstn_incl k).
Qed.

(** C4: on a collection whose ids are distinct, upserting an id and then
    upserting it again with new content leaves exactly one entry under the
    id, the one upserted last, with its title, metadata and vector; the
    earlier content leaves no trace (the collection is the one a single
    upsert of the new content gives), the collection does not grow, the
    entries under the other ids are untouched, and upserting the same
    content once more changes nothing. *)
Theorem upsert_overwrites_by_id :
  forall (c : collection) (i : string) (d1 d2 : string) (m1 m2 : metadata)
         (v1 v2 : embedding),
    NoDup (ids_of c) ->
    exists c1 c2 : collection,
      upsert [i] [m1] [d1] [v1] c = Ok c1
      /\ upsert [i] [m2] [d2] [v2] c1 = Ok c2
      /\ entries_with i c1 = [ {| id := i; document := d1; meta := m1; vector := v1 |} ]
      /\ entries_with i c2 = [ {| id := i; document := d2; meta := m2; vector := v2 |} ]
      /\ upsert [i] [m2] [d2] [v2] c = Ok c2
      /\ upsert [i] [m2] [d2] [v2] c2 = Ok c2
      /\ length c2 = length c1
      /\ NoDup (ids_of c2)
      /\ (forall j, j <> i -> entries_with j c2 = entries_with j c).
Proof.
  intros c i d1 d2 m1 m2 v1 v2 Hnd.
  set (e1 := {| id := i; document := d1; meta := m1; vector := v1 |}).
  set (e2 := {| id := i; document := d2; meta := m2; vector := v2 |}).
  exists (upsert_one e1 c), (upsert_one e2 (upsert_one e1 c)).
  assert (Hnd1 : NoDup (ids_of (upsert_one e1 c))) by now apply upsert_one_NoDup.
  repeat split.
  - apply (upsert_one_lookup e1). exact Hnd.
  - apply (upsert_one_lookup e2). exact Hnd1.
  - rewrite upsert_single. f_equal. symmetry. now apply upsert_one_twice.
  - rewrite upsert_single. f_equal. now apply upsert_one_twice.
  - rewrite upsert_one_length.
    destruct (in_dec string_dec (id e2) (ids_of (upsert_one e1 c))) as [ | Hn];
      [ reflexivity | ].
    exfalso. apply Hn. apply upsert_one_ids. now left.
  - now apply upsert_one_NoDup.
  - intros j Hj. rewrite upsert_one_other by exact Hj.
    now rewrite upsert_one_other by exact Hj.
Qed.

End Collection.

(** An empty collection, a paper upserted under an id, and upserted again
    under the same id with another title and vector. *)
Lemma upsert_overwrites_by_id_witness :
  exists c1 c2 : Chroma.collection string Z,
    upsert ["1042"] ["url-a"] ["Self-RAG"] [8%Z] [] = Ok c1
    /\ upsert ["1042"] ["url-b"] ["Llemma"] [6%Z] c1 = Ok c2
    /\ entries_with "1042" c1 =
       [ {| id := "1042"; document := "Self-RAG"; meta := "url-a"; vector := 8%Z |} ]
    /\ entries_with "1042" c2 =
       [ {| id := "1042"; document := "Llemma"; meta := "url-b"; vector := 6%Z |} ]
    /\ upsert ["1042"] ["url-b"] ["Llemma"] [6%Z] [] = Ok c2
    /\ upsert ["1042"] ["url-b"] ["Llemma"] [6%Z] c2 = Ok c2
    /\ length c2 = length c1
    /\ NoDup (map (@id string Z) c2)
    /\ (forall j, j <> "1042" -> entries_with j c2 = entries_with j []).
Proof.
  apply (@upsert_overwrites_by_id string Z [] "1042" "Self-RAG" "Llemma"
           "url-a" "url-b" 8%Z 6%Z).
  constructor.
Defined.

End ChromaFacts.

(** ** The chat chain *)

Module FoodChatFacts.
Import OpenAI FoodChat.

(** Case analysis on the next completion call of a chain: it raises, and
    the chain ends there, or it returns and the chain goes on. *)
Ltac run_stage :=
  match goal with
  | |- context [generate_response ?ep ?prompt ?h] =>
      let out := fresh "out" in
      let e := fresh "e" in
      let h' := fresh "h" in
      destruct (generate_response ep prompt h) as [[out | e] h'];
      [ | reflexivity ]
  end.

Section Facts.

Variable ep : endpoint.

(** One call of [generate_response] sends one request and hands back what
    the endpoint answers to it. *)
Lemma generate_response_run (prompt : string) (h : history) :
  generate_response ep prompt h =
  (answer (ep (h ++ [chat_request prompt])), h ++ [chat_request prompt]).
Proof.
  unfold generate_response, bind, create, answer, first_choice.
  destruct (ep (h ++ [chat_request prompt])) as [r | e]; [ | reflexivity ].
  destruct (choices r) as [ | c cs]; reflexivity.
Qed.

Lemma reasoning_step_run (user_query menu : string) (h : history) :
  reasoning_step ep user_query menu h =
  generate_response ep (reasoning_step_template user_query menu) h.
Proof. unfold reasoning_step. apply bind_ret_r. Qed.

Lemma extraction_step_run (reasoning : string) (h : history) :
  extraction_step ep reasoning h =
  generate_response ep (extraction_step_template reasoning) h.
Proof. unfold extraction_step. apply bind_ret_r. Qed.

Lemma refinement_step_run (final_response : string) (h : history) :
  refinement_step ep final_response h =
  generate_response ep (refinement_step_template final_response) h.
Proof. unfold refinement_step. apply bind_ret_r. Qed.

Lemma verification_step_run (user_question refined menu : string) (h : history) :
  verification_step ep user_question refined menu h =
  generate_response ep (verification_step_template user_question refined menu) h.
Proof. unfold verification_step. apply bind_ret_r. Qed.

Lemma run_stages_app (pre post : list stage) (q menu state : string) (h : history) :
  run_stages ep (pre ++ post) q menu state h =
  bind (run_stages ep pre q menu state) (run_stages ep post q menu) h.
Proof.
  revert state h. induction pre as [ | st pre IH]; intros state h; simpl.
  - reflexivity.
  - rewrite bind_assoc.
    destruct (generate_response ep (compose st q menu state) h) as [[out | e] h'] eqn:E.
    + rewrite (bind_ok _ _ _ E), (bind_ok _ _ _ E). apply IH.
    + rewrite (bind_raise _ _ _ E), (bind_raise _ _ _ E). reflexivity.
Qed.

(** The chain of the notebook is the four-stage machine, its last state
    wrapped for display. *)
Lemma generate_food_chatbot_run (user_query menu : string) (h : history) :
  generate_food_chatbot ep user_query menu h =
  bind (run_stages ep chain_stages user_query menu user_query)
       (fun out => ret (Markdown out)) h.
Proof.
  cbv [generate_food_chatbot chain_stages run_stages compose
       reasoning_step extraction_step refinement_step verification_step].
  cbv [bind ret].
  repeat run_stage. reflexivity.
Qed.

(** A failure of the endpoint at any stage ends the chain there, with the
    endpoint's own failure. *)
Lemma chain_failure (user_query menu : string) (pre post : list stage) (st : stage)
  (state : string) (h h1 : history) (e : api_failure) :
  chain_stages = pre ++ st :: post ->
  run_stages ep pre user_query menu user_query h = (Ok state, h1) ->
  ep (h1 ++ [chat_request (compose st user_query menu state)]) = Failure e ->
  generate_food_chatbot ep user_query menu h =
  (Raise (CompletionError e),
   h1 ++ [chat_request (compose st user_query menu state)]).
Proof.
  intros Hst Hpre Hfail. rewrite generate_food_chatbot_run.
  apply bind_raise. rewrite Hst, run_stages_app.
  rewrite (bind_ok _ _ _ Hpre). simpl run_stages.
  apply bind_raise. rewrite generate_response_run, Hfail. reflexivity.
Qed.

End Facts.

(** An endpoint without memory answers [f prompt]. *)
Lemma stateless_answer (f : string -> string) (prompt : string) (h : history) :
  generate_response (stateless f) prompt h = (Ok (f prompt), h ++ [chat_request prompt]).
Proof.
  rewrite generate_response_run. unfold stateless, answer, first_choice.
  rewrite last_last. reflexivity.
Qed.

Lemma stateless_chain (f : string -> string) (user_query menu : string) (h : history) :
  generate_food_chatbot (stateless f) user_query menu h =
  (Ok (Markdown (f (last (chain_prompts f user_query menu) EmptyString))),
   h ++ map chat_request (chain_prompts f user_query menu)).
Proof.
  rewrite generate_food_chatbot_run.
  cbv [chain_stages run_stages compose bind].
  repeat (rewrite stateless_answer; cbv beta iota).
  cbv [ret chain_prompts map last].
  repeat rewrite <- app_assoc. reflexivity.
Qed.

(** C1, the claim as stated, fails: the chain of the specification hands
    back the text of the verification stage, [generate_food_chatbot] hands
    back a [Markdown] display object that holds it.  Against an endpoint
    that answers every prompt with the same sentence, the two results
    differ. *)
Lemma food_chatbot_returns_display_object :
  fst (generate_food_chatbot parrot cheeseburger menu_items []) =
    Ok (Markdown "Our Mini Cheeseburger is $6.99!")
  /\ fst (chain_spec parrot cheeseburger menu_items []) =
    Ok (PyStr "Our Mini Cheeseburger is $6.99!")
  /\ generate_food_chatbot parrot cheeseburger menu_items []
     <> chain_spec parrot cheeseburger menu_items [].
Proof.
  assert (E1 : fst (generate_food_chatbot parrot cheeseburger menu_items []) =
               Ok (Markdown "Our Mini Cheeseburger is $6.99!")).
  { unfold parrot. rewrite stateless_chain. reflexivity. }
  assert (E2 : fst (chain_spec parrot cheeseburger menu_items []) =
               Ok (PyStr "Our Mini Cheeseburger is $6.99!")).
  { unfold chain_spec, parrot.
    cbv [chain_stages run_stages compose bind].
    repeat (rewrite stateless_answer; cbv beta iota).
    reflexivity. }
  repeat split; try assumption.
  intros E. rewrite E in E1. rewrite E1 in E2. discriminate E2.
Qed.

(** C1, as amended: for every endpoint, query and menu, the full chain is
    the four-stage machine of the specification run from the user query
    (reasoning, extraction, refinement, verification, each prompt composed
    from the previous reply, the verification prompt also from the query
    and the menu), which in turn is the four stage functions called in that
    order; the caller receives the reply of the verification stage wrapped
    in a [Markdown] display object.  Nothing but the endpoint decides the
    result: against a memoryless endpoint [f] the text is the nested
    application of [f] to the four prompts, and exactly those four requests
    are sent. *)
Theorem food_chatbot_is_four_stage_chain :
  forall (user_query menu : string) (h : history),
    (forall ep : endpoint,
        generate_food_chatbot ep user_query menu h =
        bind (run_stages ep chain_stages user_query menu user_query)
             (fun out => ret (Markdown out)) h)
    /\ (forall ep : endpoint,
        run_stages ep chain_stages user_query menu user_query h =
        (reasoning <- reasoning_step ep user_query menu ;;
         extraction <- extraction_step ep reasoning ;;
         refinement <- refinement_step ep extraction ;;
         verification_step ep user_query refinement menu) h)
    /\ (forall f : string -> string,
        generate_food_chatbot (stateless f) user_query menu h =
        (Ok (Markdown (f (last (chain_prompts f user_query menu) EmptyString))),
         h ++ map chat_request (chain_prompts f user_query menu))).
Proof.
  intros user_query menu h. split; [ | split ].
  - intros ep. apply generate_food_chatbot_run.
  - intros ep. cbv [chain_stages run_stages compose].
    cbv [reasoning_step extraction_step refinement_step verification_step].
    cbv [bind ret].
    repeat run_stage. reflexivity.
  - intros f. apply stateless_chain.
Qed.

End FoodChatFacts.

(** ** The title-suggestion pipeline *)

Module RagFacts.
Import OpenAI Pandas Rag.

Section Facts.

Variable embedding : Type.
Variable encode_text : string -> embedding.
Variable distance : embedding -> embedding -> Q.
Variable ep : endpoint.

Local Abbreviation world := (world embedding).
Local Abbreviation generate_response := (generate_response (embedding := embedding) ep).
Local Abbreviation retrieve := (retrieve encode_text distance).
Local Abbreviation suggest_titles := (suggest_titles encode_text distance ep).
Local Abbreviation ranked := (ranked encode_text distance).

(** One call of [generate_response] sends one request and hands back what
    the endpoint answers to it; nothing else of the world changes. *)
Lemma rag_generate_response_run (prompt : string) (w : world) :
  generate_response prompt w =
  (answer (ep (sent w ++ [chat_request prompt])),
   with_sent (sent w ++ [chat_request prompt]) w).
Proof.
  unfold Rag.generate_response, bind, chat_completions_create, create, answer,
    first_choice, with_sent.
  destruct (ep (sent w ++ [chat_request prompt])) as [r | e]; [ | reflexivity ].
  destruct (choices r) as [ | c cs]; reflexivity.
Qed.

(** Retrieval never fails and leaves the world as it was. *)
Lemma retrieve_run (text : string) (k : nat) (w : world) :
  retrieve text k w = (Ok (map (@Chroma.document _ _) (ranked text k w)), w).
Proof. reflexivity. Qed.

Lemma suggest_titles_failure (user_query : string) (w : world) (e : api_failure) :
  let prompt :=
    compose_prompt user_query (map (@Chroma.document _ _) (ranked user_query 10 w)) in
  ep (sent w ++ [chat_request prompt]) = Failure e ->
  suggest_titles user_query w =
  (Raise (CompletionError e), with_sent (sent w ++ [chat_request prompt]) w).
Proof.
  intros prompt F. unfold Rag.suggest_titles.
  rewrite (bind_ok _ _ _ (retrieve_run user_query 10 w)).
  apply bind_raise. rewrite rag_generate_response_run. fold prompt. rewrite F.
  reflexivity.
Qed.

(** *** Ids *)

Lemma with_rng_same (w : world) : with_rng (rng w) w = w.
Proof. destruct w; reflexivity. Qed.

Lemma id_sum_run (title : string) :
  forall (acc : N) (w : world),
    id_sum title acc w =
    (Ok (acc + code_sum title (Py.draws 1 10000 (rng w) (String.length title)))%N,
     with_rng (Py.skip (String.length title) (rng w)) w).
Proof.
  induction title as [ | c rest IH]; intros acc w.
  - simpl. unfold ret. now rewrite N.add_0_r, with_rng_same.
  - cbn [id_sum]. unfold bind, randint. rewrite IH.
    unfold with_rng.
    cbn [rng String.length Py.draws Py.skip code_sum collection sent encoded upserted].
    f_equal. f_equal. lia.
Qed.

Lemma batch_id_run (p : paper) (w : world) :
  has_title p ->
  batch_id p w = (Ok (id_of p (rng w)), with_rng (rng_past p (rng w)) w).
Proof.
  unfold has_title, batch_id, id_of, rng_past, title_chars.
  destruct (Title p) as [title | ]; [ intros _ | congruence ].
  unfold bind. rewrite id_sum_run. now rewrite N.add_0_l.
Qed.

Lemma draws_length (a b : N) (n : nat) :
  forall g, length (Py.draws a b g n) = n.
Proof. induction n as [ | n IH]; intros g; simpl; [ | rewrite IH ]; reflexivity. Qed.

Lemma draws_range (a b : N) (n : nat) :
  (a <= b)%N -> forall g, Forall (fun r => (a <= r <= b)%N) (Py.draws a b g n).
Proof.
  intros Hab. induction n as [ | n IH]; intros g; simpl; constructor.
  - now apply PyFacts.randint_value_range.
  - apply IH.
Qed.



(** *** One batch *)

Lemma comprehension_ids (batch : list paper) :
  Forall has_title batch ->
  forall w : world,
    Py.comprehension (batch_id (embedding := embedding)) batch w =
    (Ok (ids_of batch (rng w)), with_rng (rng_after batch (rng w)) w).
Proof.
  induction 1 as [ | p batch Hp _ IH]; intros w.
  - simpl. unfold ret. now rewrite with_rng_same.
  - cbn [Py.comprehension]. rewrite (bind_ok _ _ _ (batch_id_run w Hp)).
    unfold bind. rewrite IH. reflexivity.
Qed.

Lemma zip_entries_of (batch : list paper) :
  forall g,
    Chroma.zip_entries (ids_of batch g) (map batch_meta batch) (map batch_title batch)
      (map encode_text (map batch_title batch))
    = Some (entries_of encode_text batch g).
Proof.
  induction batch as [ | p batch IH]; intros g; simpl.
  - reflexivity.
  - now rewrite IH.
Qed.

(** A batch whose papers have titles and whose ids are distinct is
    embedded and upserted. *)
Lemma index_batch_run (batch : list paper) (w : world) :
  Forall has_title batch ->
  batch <> [] ->
  Chroma.repeats (ids_of batch (rng w)) = false ->
  index_batch encode_text batch w = (Ok tt, after_batch encode_text w batch).
Proof.
  intros Hall Hne Hrep. unfold index_batch.
  rewrite (bind_ok _ _ _ (comprehension_ids Hall w)).
  unfold bind, encode, collection_upsert, Chroma.upsert.
  cbn [rng collection sent encoded upserted with_rng].
  rewrite Hrep, zip_entries_of.
  destruct batch as [ | p batch]; [ congruence | reflexivity ].
Qed.

(** A batch that gets an id twice is embedded, and refused by the store. *)
Lemma index_batch_refused (batch : list paper) (w : world) :
  Forall has_title batch ->
  Chroma.repeats (ids_of batch (rng w)) = true ->
  index_batch encode_text batch w = (Raise DuplicateIDError, after_refused w batch).
Proof.
  intros Hall Hrep. unfold index_batch.
  rewrite (bind_ok _ _ _ (comprehension_ids Hall w)).
  unfold bind, encode, collection_upsert, Chroma.upsert.
  cbn [rng collection sent encoded upserted with_rng].
  rewrite Hrep.
  destruct batch as [ | p batch]; [ discriminate Hrep | reflexivity ].
Qed.

Lemma first_untitled (papers : list paper) :
  Forall has_title papers
  \/ exists pre p post,
      papers = pre ++ p :: post /\ Forall has_title pre /\ Title p = None.
Proof.
  induction papers as [ | q papers IH].
  - left. constructor.
  - destruct (Title q) as [title | ] eqn:Hq.
    + assert (Hq' : has_title q) by (unfold has_title; congruence).
      destruct IH as [IH | (pre & p & post & E & Hpre & Hp)].
      * left. now constructor.
      * right. exists (q :: pre), p, post. subst papers.
        split; [ reflexivity | ]. split; [ now constructor | exact Hp ].
    + right. exists [], q, papers. split; [ reflexivity | ]. split; [ constructor | exact Hq ].
Qed.

(** The first paper without a title stops the list comprehension of the
    ids, after the draws for the papers before it. *)
Lemma comprehension_fails (b1 b2 : list paper) (p : paper) :
  Forall has_title b1 -> Title p = None ->
  forall w : world,
    Py.comprehension (batch_id (embedding := embedding)) (b1 ++ p :: b2) w =
    (Raise TypeError, with_rng (rng_after b1 (rng w)) w).
Proof.
  intros Hall Hp. induction Hall as [ | q b1 Hq _ IH]; intros w.
  - cbn [List.app Py.comprehension rng_after]. unfold bind, batch_id.
    rewrite Hp. unfold raise. now rewrite with_rng_same.
  - cbn [List.app Py.comprehension].
    rewrite (bind_ok _ _ _ (batch_id_run w Hq)).
    unfold bind. rewrite IH. reflexivity.
Qed.

Lemma index_batch_fails (b1 b2 : list paper) (p : paper) (w : world) :
  Forall has_title b1 -> Title p = None ->
  index_batch encode_text (b1 ++ p :: b2) w =
  (Raise TypeError, with_rng (rng_after b1 (rng w)) w).
Proof.
  intros Hall Hp. unfold Rag.index_batch.
  apply bind_raise. now apply comprehension_fails.
Qed.

(** A batch is upserted whole, or raises and stores nothing. *)
Lemma index_batch_outcome (batch : list paper) (w : world) :
  index_batch encode_text batch w = (Ok tt, after_batch encode_text w batch)
  \/ exists (e : exn) (w' : world),
      index_batch encode_text batch w = (Raise e, w')
      /\ collection w' = collection w.
Proof.
  destruct (first_untitled batch) as [Hall | (b1 & p & b2 & E & Hb1 & Hp)].
  - destruct (Chroma.repeats (ids_of batch (rng w))) eqn:Hrep.
    + right. eexists. eexists. split; [ now apply index_batch_refused | reflexivity ].
    + destruct batch as [ | q batch].
      * right. exists ValueError, (after_refused w []). split; reflexivity.
      * left. apply index_batch_run; [ exact Hall | discriminate | exact Hrep ].
  - subst batch. right. eexists. eexists.
    split; [ now apply index_batch_fails | reflexivity ].
Qed.

(** *** The loop *)

Lemma for_each_map {S A B : Type} (f : A -> B) (g : B -> M S unit) (l : list A) :
  forall s, Py.for_each l (fun i => g (f i)) s = Py.for_each (map f l) g s.
Proof.
  induction l as [ | x l IH]; intros s; simpl.
  - reflexivity.
  - unfold bind. destruct (g (f x) s) as [[[] | e] s1]; [ apply IH | reflexivity ].
Qed.

(** The loop runs the body over the batches, one after the other. *)
Lemma index_papers_batches (papers : list paper) (w : world) :
  index_papers encode_text papers w =
  Py.for_each (batches papers) (index_batch encode_text) w.
Proof. unfold index_papers, batches. apply for_each_map. Qed.

Lemma slice_incl {A : Type} (l : list A) (i j : nat) : incl (Py.slice l i j) l.
Proof.
  unfold Py.slice. intros x Hx. apply ChromaFacts.firstn_incl in Hx.
  revert Hx. generalize i. induction l as [ | y l IH]; intros [ | k]; simpl; auto.
  intros Hx. right. now apply (IH k).
Qed.

(** The batches that are accepted are run through, and the loop goes on
    with what follows them. *)
Lemma run_prefix (bs1 rest : list (list paper)) :
  Forall (fun b : list paper => b <> []) bs1 ->
  Forall (Forall has_title) bs1 ->
  forall w : world,
    all_accepted bs1 (rng w) = true ->
    Py.for_each (bs1 ++ rest) (index_batch encode_text) w =
    Py.for_each rest (index_batch encode_text) (after_batches encode_text w bs1).
Proof.
  intros Hne. induction Hne as [ | b bs1 Hb _ IH]; intros Hall w Hacc.
  - reflexivity.
  - inversion Hall as [ | ? ? Hbt Hall']; subst.
    cbn [all_accepted] in Hacc. apply andb_true_iff in Hacc. destruct Hacc as [Hrep Hacc].
    apply negb_true_iff in Hrep.
    cbn [List.app Py.for_each]. unfold after_batches. cbn [fold_left].
    rewrite (bind_ok _ _ _ (index_batch_run w Hbt Hb Hrep)).
    apply IH; [ exact Hall' | exact Hacc ].
Qed.

Lemma batches_concat (papers : list paper) : concat (batches papers) = papers.
Proof.
  unfold batches, Py.range.
  rewrite PyFacts.range_slices; [ reflexivity | unfold batch_size; lia | lia ].
Qed.

Lemma batches_length (papers : list paper) :
  Forall (fun b : list paper => 1 <= length b <= batch_size) (batches papers).
Proof.
  unfold batches, Py.range. apply PyFacts.range_slices_length.
  unfold batch_size. lia.
Qed.

Lemma batches_nonempty (papers : list paper) :
  Forall (fun b : list paper => b <> []) (batches papers).
Proof.
  eapply Forall_impl; [ | apply batches_length ].
  intros b Hb E. subst b. simpl in Hb. lia.
Qed.

Lemma batches_titled (papers : list paper) :
  Forall has_title papers -> Forall (Forall has_title) (batches papers).
Proof.
  intros Hall. unfold batches. apply Forall_forall. intros b Hb.
  apply in_map_iff in Hb. destruct Hb as (i & E & _). subst b.
  rewrite Forall_forall in *. intros p Hp. apply Hall.
  now apply (@slice_incl _ papers i (i + batch_size)).
Qed.

(** When every paper has a title and no batch gets an id twice, the loop
    runs to its end. *)
Lemma index_papers_run (papers : list paper) (w : world) :
  Forall has_title papers ->
  all_accepted (batches papers) (rng w) = true ->
  index_papers encode_text papers w =
  (Ok tt, after_batches encode_text w (batches papers)).
Proof.
  intros Hall Hacc. rewrite index_papers_batches.
  rewrite <- (List.app_nil_r (batches papers)) at 1.
  rewrite (run_prefix [] (batches_nonempty papers) (batches_titled Hall) w Hacc).
  reflexivity.
Qed.

(** *** The world after the loop *)

Lemma ids_of_length (batch : list paper) :
  forall g, length (ids_of batch g) = length batch.
Proof. induction batch as [ | p batch IH]; intros g; simpl; [ | rewrite IH ]; reflexivity. Qed.

Lemma rng_after_app (b b' : list paper) :
  forall g, rng_after (b ++ b') g = rng_after b' (rng_after b g).
Proof. induction b as [ | p b IH]; intros g; simpl; [ | rewrite IH ]; reflexivity. Qed.

Lemma entries_of_app (b b' : list paper) :
  forall g,
    entries_of encode_text (b ++ b') g =
    entries_of encode_text b g ++ entries_of encode_text b' (rng_after b g).
Proof. induction b as [ | p b IH]; intros g; simpl; [ | rewrite IH ]; reflexivity. Qed.

Lemma after_batches_fields (bs : list (list paper)) :
  forall w : world,
    let w' := after_batches encode_text w bs in
    rng w' = rng_after (concat bs) (rng w)
    /\ collection w' =
       Chroma.upsert_all (entries_of encode_text (concat bs) (rng w)) (collection w)
    /\ sent w' = sent w
    /\ encoded w' = encoded w ++ map (map batch_title) bs
    /\ upserted w' = upserted w ++ calls_of encode_text bs (rng w).
Proof.
  induction bs as [ | b bs IH]; intros w; cbn zeta.
  - simpl. now rewrite !List.app_nil_r.
  - unfold after_batches. cbn [fold_left concat map calls_of].
    destruct (IH (after_batch encode_text w b)) as (Hr & Hc & Hs & He & Hu).
    unfold after_batches in Hr, Hc, Hs, He, Hu.
    rewrite Hr, Hc, Hs, He, Hu. cbn [rng collection sent encoded upserted after_batch].
    rewrite rng_after_app, entries_of_app, <- !List.app_assoc.
    unfold Chroma.upsert_all. rewrite fold_left_app. repeat split.
Qed.

Lemma calls_of_documents (bs : list (list paper)) :
  forall g, map (@call_documents embedding) (calls_of encode_text bs g) =
            map (map batch_title) bs.
Proof. induction bs as [ | b bs IH]; intros g; simpl; [ | rewrite IH ]; reflexivity. Qed.

Lemma calls_of_metadatas (bs : list (list paper)) :
  forall g, map (@call_metadatas embedding) (calls_of encode_text bs g) =
            map (map batch_meta) bs.
Proof. induction bs as [ | b bs IH]; intros g; simpl; [ | rewrite IH ]; reflexivity. Qed.

Lemma calls_of_embeddings (bs : list (list paper)) :
  forall g, map (@call_embeddings embedding) (calls_of encode_text bs g) =
            map (fun b => map encode_text (map batch_title b)) bs.
Proof. induction bs as [ | b bs IH]; intros g; simpl; [ | rewrite IH ]; reflexivity. Qed.

Lemma calls_of_id_counts (bs : list (list paper)) :
  forall g, map (fun call => length (call_ids call)) (calls_of encode_text bs g) =
            map (@length paper) bs.
Proof.
  induction bs as [ | b bs IH]; intros g; simpl; [ | rewrite IH, ids_of_length ];
    reflexivity.
Qed.

(** What dropna leaves has a title. *)
Lemma ml_papers_dict_titled (csv : list paper) : Forall has_title (ml_papers_dict csv).
Proof.
  apply Forall_forall. intros p Hp. unfold ml_papers_dict, to_dict_records, ml_papers in Hp.
  apply PandasFacts.dropna_In in Hp. destruct Hp as [_ Hc].
  specialize (Hc ColTitle (or_introl eq_refl)). unfold has_title. simpl in Hc.
  destruct (Title p); [ discriminate | discriminate ].
Qed.

(** *** Papers without a title text *)






(** *** A call the store refuses *)

(** The first batch that gets an id twice. *)
Lemma first_refused (bs : list (list paper)) :
  forall g,
    all_accepted bs g = false ->
    exists bs1 b bs2,
      bs = bs1 ++ b :: bs2
      /\ all_accepted bs1 g = true
      /\ Chroma.repeats (ids_of b (rng_after (concat bs1) g)) = true.
Proof.
  induction bs as [ | b bs IH]; intros g H.
  - discriminate H.
  - cbn [all_accepted] in H.
    destruct (Chroma.repeats (ids_of b g)) eqn:Hrep.
    + exists [], b, bs. repeat split. exact Hrep.
    + cbn [negb andb] in H.
      destruct (IH _ H) as (bs1 & b' & bs2 & E & Hacc & Hrep').
      exists (b :: bs1), b', bs2. subst bs. split; [ reflexivity | ]. split.
      * cbn [all_accepted]. now rewrite Hrep, Hacc.
      * cbn [concat]. now rewrite rng_after_app.
Qed.


(** When a batch gets an id twice the loop stops there: the batches before
    it are upserted, the batch itself is embedded and not stored. *)
Lemma index_papers_refused (papers : list paper) (w : world) :
  Forall has_title papers ->
  all_accepted (batches papers) (rng w) = false ->
  exists bs1 b bs2,
    batches papers = bs1 ++ b :: bs2
    /\ all_accepted bs1 (rng w) = true
    /\ Chroma.repeats (ids_of b (rng_after (concat bs1) (rng w))) = true
    /\ index_papers encode_text papers w =
       (Raise DuplicateIDError,
        after_refused (after_batches encode_text w bs1) b).
Proof.
  intros Hall Hacc.
  destruct (first_refused _ _ Hacc) as (bs1 & b & bs2 & E & Hacc1 & Hrep).
  exists bs1, b, bs2. split; [ exact E | ]. split; [ exact Hacc1 | ].
  split; [ exact Hrep | ].
  pose proof (batches_nonempty papers) as Hne.
  pose proof (batches_titled Hall) as Ht.
  rewrite E in Hne, Ht.
  apply Forall_app in Hne. destruct Hne as [Hne1 _].
  apply Forall_app in Ht. destruct Ht as [Ht1 Ht2].
  inversion Ht2 as [ | ? ? Hb _]; subst.
  rewrite index_papers_batches, E, (run_prefix _ Hne1 Ht1 w Hacc1).
  cbn [Py.for_each]. apply bind_raise. apply index_batch_refused; [ exact Hb | ].
  destruct (after_batches_fields bs1 w) as (Hr & _). now rewrite Hr.
Qed.




(** *** The collection the loop leaves *)

Lemma run_batches_collection (bs : list (list paper)) :
  forall w : world,
    exists done rest : list (list paper),
      bs = done ++ rest
      /\ collection (snd (Py.for_each bs (index_batch encode_text) w)) =
         collection (after_batches encode_text w done).
Proof.
  induction bs as [ | b bs IH]; intros w.
  - exists [], []. split; reflexivity.
  - cbn [Py.for_each].
    destruct (index_batch_outcome b w) as [Hok | (e & w' & Hr & Hc)].
    + rewrite (bind_ok _ _ _ Hok).
      destruct (IH (after_batch encode_text w b)) as (done & rest & E & Hcol).
      exists (b :: done), rest. split; [ now rewrite E | exact Hcol ].
    + rewrite (bind_raise _ _ _ Hr). exists [], (b :: bs).
      split; [ reflexivity | exact Hc ].
Qed.

(** Whether the loop ends or raises, the collection it leaves is the old
    one with the entries of a prefix of the papers upserted in order. *)
Lemma index_papers_collection (papers : list paper) (w : world) :
  exists done rest : list paper,
    papers = done ++ rest
    /\ collection (snd (index_papers encode_text papers w)) =
       Chroma.upsert_all (entries_of encode_text done (rng w)) (collection w).
Proof.
  rewrite index_papers_batches.
  destruct (run_batches_collection (batches papers) w) as (done & rest & E & Hc).
  exists (concat done), (concat rest). split.
  - now rewrite <- concat_app, <- E, batches_concat.
  - rewrite Hc. now destruct (after_batches_fields done w) as (_ & Hcol & _).
Qed.

(** *** Retrieval and the prompt *)

Lemma suggest_titles_sent (user_query : string) (w : world) :
  sent (snd (suggest_titles user_query w)) =
  sent w ++ [chat_request
               (compose_prompt user_query
                  (map (@Chroma.document _ _) (ranked user_query 10 w)))].
Proof.
  unfold Rag.suggest_titles.
  rewrite (bind_ok _ _ _ (retrieve_run user_query 10 w)).
  unfold bind. rewrite rag_generate_response_run.
  destruct (answer _) as [text | e]; reflexivity.
Qed.

End Facts.

End RagFacts.

(** ** The completion client *)

Module CompletionClient.
Import OpenAI.

(** C7: for every prompt, [generate_response] sends one request, whose
    message list is the single user message holding exactly the prompt and
    whose model identifier is fixed (gpt-4o in the chat notebook,
    gpt-4o-mini in the RAG notebook), and returns the content of the first
    choice of the reply (an empty list of choices or a failure of the
    endpoint is raised). *)
Theorem generate_response_sends_single_user_message :
  forall (ep : endpoint) (prompt : string),
    (forall h : history,
        let req := {| model := "gpt-4o";
                      messages := [ {| role := "user"; content := prompt |} ] |} in
        FoodChat.generate_response ep prompt h =
        (match ep (h ++ [req]) with
         | Reply r =>
             match choices r with
             | c :: _ => Ok (content (choice_message c))
             | [] => Raise IndexError
             end
         | Failure e => Raise (CompletionError e)
         end,
         h ++ [req]))
    /\ (forall (embedding : Type) (w : Rag.world embedding),
        let req := {| model := "gpt-4o-mini";
                      messages := [ {| role := "user"; content := prompt |} ] |} in
        Rag.generate_response ep prompt w =
        (match ep (Rag.sent w ++ [req]) with
         | Reply r =>
             match choices r with
             | c :: _ => Ok (content (choice_message c))
             | [] => Raise IndexError
             end
         | Failure e => Raise (CompletionError e)
         end,
         Rag.with_sent (Rag.sent w ++ [req]) w)).
Proof.
  intros ep prompt. split.
  - intros h req. apply FoodChatFacts.generate_response_run.
  - intros embedding w req. apply RagFacts.rag_generate_response_run.
Qed.

(** C9: when the endpoint fails, the completion client raises that very
    failure after the one request it sent, in both notebooks; the chat
    chain stops at the stage whose call failed, with the same failure and
    no request after it, and so does the title suggestion. *)
Theorem completion_failure_propagates :
  forall (ep : endpoint) (e : api_failure),
    (forall (prompt : string) (h : history),
        ep (h ++ [FoodChat.chat_request prompt]) = Failure e ->
        FoodChat.generate_response ep prompt h =
        (Raise (CompletionError e), h ++ [FoodChat.chat_request prompt]))
    /\ (forall (user_query menu : string) (pre post : list FoodChat.stage)
               (st : FoodChat.stage) (state : string) (h h1 : history),
        FoodChat.chain_stages = pre ++ st :: post ->
        FoodChat.run_stages ep pre user_query menu user_query h = (Ok state, h1) ->
        let req := FoodChat.chat_request (FoodChat.compose st user_query menu state) in
        ep (h1 ++ [req]) = Failure e ->
        FoodChat.generate_food_chatbot ep user_query menu h =
        (Raise (CompletionError e), h1 ++ [req]))
    /\ (forall (embedding : Type) (prompt : string) (w : Rag.world embedding),
        ep (Rag.sent w ++ [Rag.chat_request prompt]) = Failure e ->
        Rag.generate_response ep prompt w =
        (Raise (CompletionError e),
         Rag.with_sent (Rag.sent w ++ [Rag.chat_request prompt]) w))
    /\ (forall (embedding : Type) (encode_text : string -> embedding)
               (distance : embedding -> embedding -> Q)
               (user_query : string) (w : Rag.world embedding),
        let retrieved :=
          map (@Chroma.document _ _) (Rag.ranked encode_text distance user_query 10 w) in
        let req := Rag.chat_request (Rag.compose_prompt user_query retrieved) in
        ep (Rag.sent w ++ [req]) = Failure e ->
        Rag.suggest_titles encode_text distance ep user_query w =
        (Raise (CompletionError e), Rag.with_sent (Rag.sent w ++ [req]) w)).
Proof.
  intros ep e. repeat split.
  - intros prompt h F. rewrite FoodChatFacts.generate_response_run, F. reflexivity.
  - intros user_query menu pre post st state h h1 Hst Hpre req F.
    eapply FoodChatFacts.chain_failure; eassumption.
  - intros embedding prompt w F. rewrite RagFacts.rag_generate_response_run, F. reflexivity.
  - intros embedding encode_text distance user_query w retrieved req F.
    apply RagFacts.suggest_titles_failure. exact F.
Qed.

(** The endpoint that is out of quota, at the query of the notebook: the
    chain stops at the reasoning stage after one request, and the title
    suggestion stops at its only completion call. *)
Lemma completion_failure_propagates_witness :
  FoodChat.generate_response FoodChat.out_of_quota "Hello" [] =
    (Raise (CompletionError RateLimitError), [FoodChat.chat_request "Hello"])
  /\ FoodChat.generate_food_chatbot FoodChat.out_of_quota FoodChat.cheeseburger
       FoodChat.menu_items [] =
    (Raise (CompletionError RateLimitError),
     [FoodChat.chat_request
        (FoodChat.reasoning_step_template FoodChat.cheeseburger FoodChat.menu_items)])
  /\ Rag.generate_response FoodChat.out_of_quota "Hello" Rag.empty_world =
    (Raise (CompletionError RateLimitError),
     Rag.with_sent [Rag.chat_request "Hello"] Rag.empty_world)
  /\ Rag.suggest_titles Rag.toy_encode Rag.toy_distance FoodChat.out_of_quota
       "Self-RAG" Rag.empty_world =
    (Raise (CompletionError RateLimitError),
     Rag.with_sent [Rag.chat_request (Rag.compose_prompt "Self-RAG" [])] Rag.empty_world).
Proof.
  destruct (completion_failure_propagates FoodChat.out_of_quota RateLimitError)
    as (A & B & C & D).
  split; [ | split; [ | split ] ].
  - apply (A "Hello" []). reflexivity.
  - apply (B FoodChat.cheeseburger FoodChat.menu_items []
             [FoodChat.Extraction; FoodChat.Refinement; FoodChat.Verification]
             FoodChat.Reasoning
             FoodChat.cheeseburger [] []); reflexivity.
  - apply (C Z "Hello" Rag.empty_world). reflexivity.
  - apply (D Z Rag.toy_encode Rag.toy_distance "Self-RAG" Rag.empty_world). reflexivity.
Defined.

End CompletionClient.

(** ** The data set loader *)

Module Loader.
Import Pandas Rag.

(** C2: a row of the table is retained exactly when neither its title nor
    its description is missing (the empty field of the file, which
    [read_csv] reads as the missing value), and the number of rows retained
    is the number of rows read less the number of rows dropped. *)
Theorem ml_papers_retains_rows_with_title_and_description :
  forall csv : list paper,
    (forall r : paper,
        In r (ml_papers csv) <->
        In r csv /\ isna (Title r) = false /\ isna (Description r) = false)
    /\ (forall r : paper,
        In r (dropped get [ColTitle; ColDescription] csv) <->
        In r csv /\ (isna (Title r) = true \/ isna (Description r) = true))
    /\ length (ml_papers csv) =
       length csv - length (dropped get [ColTitle; ColDescription] csv).
Proof.
  intros csv. split; [ | split ].
  - intros r. unfold ml_papers. rewrite PandasFacts.dropna_In. split.
    + intros [Hin Hall]. split; [ exact Hin | ]. split.
      * apply (Hall ColTitle). now left.
      * apply (Hall ColDescription). right. now left.
    + intros (Hin & Ht & Hd). split; [ exact Hin | ].
      intros c [E | [E | []]]; subst c; assumption.
  - intros r. rewrite PandasFacts.dropped_In. split.
    + intros (Hin & c & [E | [E | []]] & Hna); subst c; (split; [ exact Hin | ]).
      * now left.
      * now right.
    + intros (Hin & [Ht | Hd]); (split; [ exact Hin | ]).
      * exists ColTitle. split; [ now left | exact Ht ].
      * exists ColDescription. split; [ right; now left | exact Hd ].
  - unfold ml_papers.
    pose proof (PandasFacts.dropna_length get [ColTitle; ColDescription] csv). lia.
Qed.

(** Of the sample table the loader drops the row without a description
    and the row without a title; a title that is present keeps its row even
    when its text is empty. *)
Example ml_papers_sample :
  ml_papers sample_csv = [llemma; blank_title "first"; self_rag; blank_title "second"]
  /\ dropped get [ColTitle; ColDescription] sample_csv = [undescribed; untitled].
Proof. split; reflexivity. Qed.

End Loader.

(** ** The embedding indexer *)

Module Indexer.
Import Pandas Rag.

(** C3: the id of a paper is the decimal string of the sum, over the
    characters of its title, of the character code plus an offset drawn for
    that character from 1 to 10000 (one call of the generator per
    character, in order).  The id depends on the generator: for a title
    that is not empty, two runs can give different ids. *)
Theorem batch_id_is_decimal_offset_sum :
  forall (embedding : Type) (p : paper) (title : string) (w : world embedding),
    Title p = Some title ->
    let offsets := Py.draws 1 10000 (rng w) (String.length title) in
    batch_id p w =
      (Ok (Py.str (code_sum title offsets)),
       with_rng (Py.skip (String.length title) (rng w)) w)
    /\ length offsets = String.length title
    /\ Forall (fun r => (1 <= r <= 10000)%N) offsets
    /\ (title <> EmptyString ->
        exists (w1 w2 : world embedding) (id1 id2 : string),
          fst (batch_id p w1) = Ok id1
          /\ fst (batch_id p w2) = Ok id2
          /\ id1 <> id2).
Proof.
  intros embedding p title w Ht offsets.
  assert (Hp : has_title p) by (unfold has_title; congruence).
  assert (Hc : title_chars p = title) by (unfold title_chars; now rewrite Ht).
  split; [ | split; [ | split ] ].
  - rewrite (RagFacts.batch_id_run w Hp). unfold id_of, rng_past.
    rewrite Hc. reflexivity.
  - apply RagFacts.draws_length.
  - apply RagFacts.draws_range. lia.
  - intros Hne. destruct title as [ | c rest]; [ congruence | ].
    exists (with_rng steady w), (with_rng nudged w),
      (id_of p steady), (id_of p nudged).
    split; [ now rewrite (RagFacts.batch_id_run _ Hp) | ].
    split; [ now rewrite (RagFacts.batch_id_run _ Hp) | ].
    intros E. unfold id_of in E. apply PyFacts.str_inj in E.
    rewrite Hc in E. cbn [String.length Py.draws code_sum] in E.
    change (Py.advance nudged) with (Py.advance steady) in E.
    change (Py.randint_value 1 10000 (steady 0)) with 1%N in E.
    change (Py.randint_value 1 10000 (nudged 0)) with 2%N in E.
    lia.
Qed.

(** The id of the first paper of the data set under the steady generator,
    whose every draw is 1. *)
Lemma batch_id_is_decimal_offset_sum_witness :
  Title llemma = Some "Llemma"
  /\ fst (batch_id llemma empty_world) = Ok "606"
  /\ exists (w1 w2 : world Z) (id1 id2 : string),
      fst (batch_id llemma w1) = Ok id1
      /\ fst (batch_id llemma w2) = Ok id2
      /\ id1 <> id2.
Proof.
  destruct (@batch_id_is_decimal_offset_sum Z llemma "Llemma" empty_world eq_refl)
    as (Hid & _ & _ & Hnd).
  split; [ reflexivity | ]. split.
  - rewrite Hid. reflexivity.
  - apply Hnd. discriminate.
Defined.

(** C5, the claim as stated, fails: two papers of the loaded table whose
    titles are rearrangements of each other get the same id from a
    generator that repeats one number; the store refuses the call, and the
    loop stops with nothing upserted.  Two papers with an empty title in
    one batch stop it whatever the generator holds. *)
Lemma index_papers_stops_at_repeated_id :
  ml_papers_dict [titled "star"; titled "rats"] = [titled "star"; titled "rats"]
  /\ ids_of [titled "star"; titled "rats"] (rng empty_world) = ["446"; "446"]
  /\ fst (index_papers toy_encode (ml_papers_dict [titled "star"; titled "rats"])
            empty_world) = Raise DuplicateIDError
  /\ upserted (snd (index_papers toy_encode
                      (ml_papers_dict [titled "star"; titled "rats"]) empty_world)) = []
  /\ collection (snd (index_papers toy_encode
                        (ml_papers_dict [titled "star"; titled "rats"]) empty_world)) = []
  /\ (forall g : Py.generator,
        fst (index_papers toy_encode
               (ml_papers_dict [blank_title "first"; blank_title "second"])
               (with_rng g empty_world)) = Raise DuplicateIDError).
Proof.
  split; [ reflexivity | ]. repeat (split; [ vm_compute; reflexivity | ]).
  intros g. vm_compute. reflexivity.
Qed.

(** C5, as amended: for every list of papers that have a title (what the
    loader returns), the batches the loop visits hold at most 50 papers
    each, none is empty, and their concatenation is the input.  When no
    batch gets an id twice the loop runs to its end: the embedding model
    is called once per batch with the titles of the batch, and [upsert] is
    called once per batch with one id, one metadata, one document and one
    vector per paper of the batch, in the order of the input, so the
    documents upserted, batch after batch, are the titles of the input,
    each exactly once.  When a batch gets an id twice the store refuses
    its call and the loop stops there: the batches before it are upserted
    once each, the batch itself is embedded and not upserted, and the
    batches after it are not visited. *)
Theorem index_papers_visits_every_paper_once :
  forall (embedding : Type) (encode_text : string -> embedding)
         (papers : list paper) (w : world embedding),
    Forall has_title papers ->
    concat (batches papers) = papers
    /\ Forall (fun b : list paper => 1 <= length b <= 50) (batches papers)
    /\ (all_accepted (batches papers) (rng w) = true ->
        exists (w' : world embedding) (calls : list (upsert_call embedding)),
          index_papers encode_text papers w = (Ok tt, w')
          /\ encoded w' = encoded w ++ map (map batch_title) (batches papers)
          /\ upserted w' = upserted w ++ calls
          /\ map (@call_documents embedding) calls = map (map batch_title) (batches papers)
          /\ map (@call_metadatas embedding) calls = map (map batch_meta) (batches papers)
          /\ map (@call_embeddings embedding) calls =
             map (fun b => map encode_text (map batch_title b)) (batches papers)
          /\ map (fun call => length (call_ids call)) calls =
             map (@length paper) (batches papers)
          /\ concat (map (@call_documents embedding) calls) = map batch_title papers)
    /\ (all_accepted (batches papers) (rng w) = false ->
        exists (bs1 : list (list paper)) (b : list paper) (bs2 : list (list paper))
               (w' : world embedding) (calls : list (upsert_call embedding)),
          batches papers = bs1 ++ b :: bs2
          /\ all_accepted bs1 (rng w) = true
          /\ Chroma.repeats (ids_of b (rng_after (concat bs1) (rng w))) = true
          /\ index_papers encode_text papers w = (Raise DuplicateIDError, w')
          /\ encoded w' = encoded w ++ map (map batch_title) (bs1 ++ [b])
          /\ upserted w' = upserted w ++ calls
          /\ map (@call_documents embedding) calls = map (map batch_title) bs1).
Proof.
  intros embedding encode_text papers w Hall.
  split; [ apply RagFacts.batches_concat | ].
  split; [ apply RagFacts.batches_length | ].
  split.
  - intros Hacc.
    exists (after_batches encode_text w (batches papers)),
      (calls_of encode_text (batches papers) (rng w)).
    destruct (RagFacts.after_batches_fields encode_text (batches papers) w)
      as (_ & _ & _ & He & Hu).
    split; [ now apply RagFacts.index_papers_run | ].
    split; [ exact He | ].
    split; [ exact Hu | ].
    split; [ apply RagFacts.calls_of_documents | ].
    split; [ apply RagFacts.calls_of_metadatas | ].
    split; [ apply RagFacts.calls_of_embeddings | ].
    split; [ apply RagFacts.calls_of_id_counts | ].
    rewrite RagFacts.calls_of_documents, <- concat_map, RagFacts.batches_concat.
    reflexivity.
  - intros Hacc.
    destruct (RagFacts.index_papers_refused encode_text w Hall Hacc)
      as (bs1 & b & bs2 & E & Hacc1 & Hrep & Hrun).
    destruct (RagFacts.after_batches_fields encode_text bs1 w)
      as (_ & _ & _ & He & Hu).
    exists bs1, b, bs2, (after_refused (after_batches encode_text w bs1) b),
      (calls_of encode_text bs1 (rng w)).
    split; [ exact E | ]. split; [ exact Hacc1 | ]. split; [ exact Hrep | ].
    split; [ exact Hrun | ].
    cbn [encoded upserted after_refused]. rewrite He, Hu, map_app, <- List.app_assoc.
    repeat split. apply RagFacts.calls_of_documents.
Qed.

(** Two papers whose ids differ, indexed from the empty world: one batch,
    one call, two documents. *)
Lemma index_papers_visits_every_paper_once_witness :
  Forall has_title (ml_papers_dict [llemma; self_rag])
  /\ all_accepted (batches (ml_papers_dict [llemma; self_rag])) (rng empty_world) = true
  /\ exists (w' : world Z) (calls : list (upsert_call Z)),
      index_papers toy_encode (ml_papers_dict [llemma; self_rag]) empty_world = (Ok tt, w')
      /\ map (@call_documents Z) calls = [["Llemma"; "Self-RAG"]]
      /\ upserted w' = calls.
Proof.
  assert (H : Forall has_title (ml_papers_dict [llemma; self_rag])).
  { repeat constructor; discriminate. }
  assert (A : all_accepted (batches (ml_papers_dict [llemma; self_rag]))
                (rng empty_world) = true).
  { vm_compute. reflexivity. }
  split; [ exact H | ]. split; [ exact A | ].
  destruct (@index_papers_visits_every_paper_once Z toy_encode
              (ml_papers_dict [llemma; self_rag]) empty_world H)
    as (_ & _ & Hok & _).
  destruct (Hok A) as (w' & calls & Hrun & _ & Hu & Hd & _).
  exists w', calls. split; [ exact Hrun | ]. split; [ exact Hd | exact Hu ].
Defined.




End Indexer.

(** ** The similarity retriever *)

Module Retriever.
Import Rag.

(** C6: for every query text and result count [k], the retriever returns
    the documents of at most [k] entries of the collection (as many as
    [k] and the size of the collection allow), ordered by non-decreasing
    distance to the embedding of the query, that is by non-increasing
    similarity; from an empty collection it returns the empty list.  The
    world is left as it was. *)
Theorem retrieve_at_most_k_closest_first :
  forall (embedding : Type) (encode_text : string -> embedding)
         (distance : embedding -> embedding -> Q)
         (text : string) (k : nat) (w : world embedding),
    exists hits : list (Chroma.entry metadata embedding),
      retrieve encode_text distance text k w =
        (Ok (map (@Chroma.document _ _) hits), w)
      /\ length (map (@Chroma.document _ _) hits) <= k
      /\ length hits = Nat.min k (length (collection w))
      /\ StronglySorted (@Chroma.closer _ _ distance (encode_text text)) hits
      /\ incl hits (collection w)
      /\ (collection w = [] -> map (@Chroma.document _ _) hits = []).
Proof.
  intros embedding encode_text distance text k w.
  exists (ranked encode_text distance text k w).
  destruct (ChromaFacts.top_k distance (encode_text text) k (collection w))
    as (Hlen & Hsorted & Hincl).
  split; [ apply RagFacts.retrieve_run | ].
  split; [ rewrite length_map; unfold ranked; rewrite Hlen; apply Nat.le_min_l | ].
  split; [ exact Hlen | ].
  split; [ exact Hsorted | ].
  split; [ exact Hincl | ].
  intros E. unfold ranked. rewrite E. simpl. now rewrite firstn_nil.
Qed.

(** The scenario of the specification: two titles are indexed, and the
    one closest to the query under the toy embedding is retrieved. *)
Example retrieve_self_rag :
  fst (bind (index_papers toy_encode [self_rag; llemma])
            (fun _ => retrieve toy_encode toy_distance "retrieval augmented" 1)
            empty_world)
  = Ok ["Self-RAG"].
Proof. vm_compute. reflexivity. Qed.

End Retriever.

(** ** The prompt composer *)

Module PromptComposer.
Import OpenAI Rag.

(** [sep.join] is the concatenation with separators of the standard
    library. *)
Lemma join_concat (sep : string) (l : list string) : Py.join sep l = String.concat sep l.
Proof.
  induction l as [ | x l IH]; cbn [Py.join String.concat].
  - reflexivity.
  - destruct l as [ | y l]; [ reflexivity | ]. now rewrite IH.
Qed.

(** C8: the prompt is a function of the original title and of the ordered
    retrieved titles alone.  It is the text of the template (the task, the
    field PAPER_TITLE, the field SHORT_TITLES and the heading
    SUGGESTED_TITLES) with the original title put after PAPER_TITLE and the
    retrieved titles, joined by line feeds in their order, put after
    SHORT_TITLES; for the query and the ten titles of the notebook it is
    the prompt the notebook printed.  Equal inputs give equal prompts, and
    the request the last cell sends carries that prompt whatever the
    endpoint, the generator and the earlier requests are. *)
Theorem compose_prompt_is_fixed_template :
  (forall (original_title : string) (retrieved_titles : list string),
      compose_prompt original_title retrieved_titles =
      ("
Your main task is to generate 5 SUGGESTED_TITLES based for the PAPER_TITLE

You should mimic a similar style and length as SHORT_TITLES but PLEASE DO NOT include titles from SHORT_TITLES in the SUGGESTED_TITLES, only generate appropriate and factual versions of the PAPER_TILE.

PAPER_TITLE: " ++ original_title ++ "

SHORT_TITLES: " ++ String.concat "
" retrieved_titles ++ "

SUGGESTED_TITLES:
")%string)
  /\ compose_prompt notebook_query notebook_retrieved = notebook_prompt
  /\ (forall (t1 t2 : string) (r1 r2 : list string),
        t1 = t2 -> r1 = r2 -> compose_prompt t1 r1 = compose_prompt t2 r2)
  /\ (forall (embedding : Type) (encode_text : string -> embedding)
             (distance : embedding -> embedding -> Q) (ep : endpoint)
             (user_query : string) (w : world embedding),
        sent (snd (suggest_titles encode_text distance ep user_query w)) =
        sent w ++
        [chat_request
           (compose_prompt user_query
              (map (@Chroma.document _ _)
                   (ranked encode_text distance user_query 10 w)))]).
Proof.
  split; [ | split; [ | split ] ].
  - intros original_title retrieved_titles.
    unfold compose_prompt, prompt_template. rewrite join_concat. reflexivity.
  - vm_compute. reflexivity.
  - intros t1 t2 r1 r2 Et Er. now rewrite Et, Er.
  - intros embedding encode_text distance ep user_query w.
    apply RagFacts.suggest_titles_sent.
Qed.

(** The prompt for one title and two retrieved titles, spelled out. *)
Lemma compose_prompt_is_fixed_template_witness :
  compose_prompt "S3Eval" ["Llemma"; "Self-RAG"] =
  "
Your main task is to generate 5 SUGGESTED_TITLES based for the PAPER_TITLE

You should mimic a similar style and length as SHORT_TITLES but PLEASE DO NOT include titles from SHORT_TITLES in the SUGGESTED_TITLES, only generate appropriate and factual versions of the PAPER_TILE.

PAPER_TITLE: S3Eval

SHORT_TITLES: Llemma
Self-RAG

SUGGESTED_TITLES:
".
Proof.
  destruct compose_prompt_is_fixed_template as (H & _).
  rewrite H. reflexivity.
Defined.

(** The model composes, for the query of the notebook and the titles it
    retrieved, the very prompt the notebook printed. *)
Example compose_prompt_notebook :
  compose_prompt notebook_query notebook_retrieved = notebook_prompt.
Proof. vm_compute. reflexivity. Qed.

End PromptComposer.

(** ** Runs of the chat chain *)

Module ChainRuns.
Import OpenAI FoodChat.

(** Case analysis on the answer to the next request of a chain. *)
Ltac next_answer :=
  rewrite FoodChatFacts.generate_response_run;
  match goal with
  | |- context [answer ?o] =>
      let out := fresh "out" in
      let x := fresh "x" in
      let E := fresh "E" in
      destruct (answer o) as [out | x] eqn:E; cbv beta iota
  end.

(** X1: when the chain returns, it has sent exactly four requests, in the
    order reasoning, extraction, refinement, verification; each was
    answered, the prompt of each stage after the first holds the answer to
    the stage before it, and the value returned is the answer to the
    fourth, as a display object. *)
Theorem chain_success_sends_four_requests :
  forall (ep : endpoint) (user_query menu : string) (h h' : history) (v : pyobject),
    generate_food_chatbot ep user_query menu h = (Ok v, h') ->
    exists reasoning extraction refinement verification : string,
      let reqs := chain_requests user_query menu reasoning extraction refinement in
      h' = h ++ reqs
      /\ v = Markdown verification
      /\ answer (ep (h ++ firstn 1 reqs)) = Ok reasoning
      /\ answer (ep (h ++ firstn 2 reqs)) = Ok extraction
      /\ answer (ep (h ++ firstn 3 reqs)) = Ok refinement
      /\ answer (ep (h ++ reqs)) = Ok verification.
Proof.
  intros ep user_query menu h h' v.
  rewrite FoodChatFacts.generate_food_chatbot_run.
  cbv [chain_stages run_stages compose bind].
  next_answer; [ | discriminate ].
  next_answer; [ | discriminate ].
  next_answer; [ | discriminate ].
  next_answer; [ | discriminate ].
  cbv [ret]. intros R. injection R as Ev Eh. subst v h'.
  exists out, out0, out1, out2. cbv zeta.
  cbv [chain_requests firstn]. repeat rewrite <- List.app_assoc in *.
  cbn [List.app] in *. repeat split; assumption.
Qed.

(** Against the endpoint that repeats one sentence, the chain returns that
    sentence after four requests. *)
Lemma chain_success_sends_four_requests_witness :
  exists reasoning extraction refinement verification : string,
    snd (generate_food_chatbot parrot cheeseburger menu_items []) =
      [] ++ chain_requests cheeseburger menu_items reasoning extraction refinement
    /\ fst (generate_food_chatbot parrot cheeseburger menu_items []) =
       Ok (Markdown verification).
Proof.
  destruct (@chain_success_sends_four_requests parrot cheeseburger menu_items []
              (snd (generate_food_chatbot parrot cheeseburger menu_items []))
              (Markdown "Our Mini Cheeseburger is $6.99!"))
    as (r & e & f & v & Hh & Hv & _).
  - unfold parrot. rewrite FoodChatFacts.stateless_chain. reflexivity.
  - exists r, e, f, v. split; [ exact Hh | ].
    unfold parrot. rewrite FoodChatFacts.stateless_chain. cbn [fst]. now rewrite <- Hv.
Defined.

(** X2: when the chain raises, it has sent at least one and at most four
    requests, the exception is what the last of them was answered with (a
    failure of the endpoint, or the index error of a reply without
    choices), and nothing was sent after it. *)
Theorem chain_failure_is_last_answer :
  forall (ep : endpoint) (user_query menu : string) (h h' : history) (x : exn),
    generate_food_chatbot ep user_query menu h = (Raise x, h') ->
    exists reqs : list request,
      h' = h ++ reqs
      /\ 1 <= length reqs <= 4
      /\ answer (ep h') = Raise x.
Proof.
  intros ep user_query menu h h' x.
  rewrite FoodChatFacts.generate_food_chatbot_run.
  cbv [chain_stages run_stages compose bind].
  next_answer;
    [ | intros R; injection R as Ex Eh; subst x0 h';
        eexists [_]; repeat split; [ simpl; lia | simpl; lia | assumption ] ].
  next_answer;
    [ | intros R; injection R as Ex Eh; subst x0 h';
        exists [chat_request (reasoning_step_template user_query menu);
                chat_request (extraction_step_template out)];
        rewrite <- List.app_assoc in *;
        repeat split; [ simpl; lia | simpl; lia | assumption ] ].
  next_answer;
    [ | intros R; injection R as Ex Eh; subst x0 h';
        exists [chat_request (reasoning_step_template user_query menu);
                chat_request (extraction_step_template out);
                chat_request (refinement_step_template out0)];
        repeat rewrite <- List.app_assoc in *;
        repeat split; [ simpl; lia | simpl; lia | assumption ] ].
  next_answer;
    [ cbv [ret]; discriminate
    | intros R; injection R as Ex Eh; subst x0 h';
      exists (chain_requests user_query menu out out0 out1);
      unfold chain_requests; repeat rewrite <- List.app_assoc in *;
      repeat split; [ simpl; lia | simpl; lia | assumption ] ].
Qed.

(** An endpoint whose replies hold no choice: the chain raises the index
    error after its first request. *)
Lemma chain_failure_is_last_answer_witness :
  exists reqs : list request,
    snd (generate_food_chatbot speechless cheeseburger menu_items []) = [] ++ reqs
    /\ 1 <= length reqs <= 4
    /\ answer (speechless (snd (generate_food_chatbot speechless cheeseburger menu_items [])))
       = Raise IndexError.
Proof.
  apply (@chain_failure_is_last_answer speechless cheeseburger menu_items []
           (snd (generate_food_chatbot speechless cheeseburger menu_items []))
           IndexError).
  reflexivity.
Defined.

End ChainRuns.

(** ** The last cell of the RAG notebook *)

Module Suggestion.
Import OpenAI Rag.

(** Joining the characters of a string with the empty separator gives the
    string back. *)
Lemma join_characters (s : string) :
  Py.join EmptyString (map (fun r => String r EmptyString) (list_ascii_of_string s)) = s.
Proof.
  induction s as [ | a s IH].
  - reflexivity.
  - cbn [list_ascii_of_string map Py.join].
    destruct (map (fun r => String r EmptyString) (list_ascii_of_string s)) as [ | x rest] eqn:E.
    + destruct s; [ reflexivity | discriminate E ].
    + cbn [String.append]. now rewrite IH.
Qed.

Section Cell.

Variable embedding : Type.
Variable encode_text : string -> embedding.
Variable distance : embedding -> embedding -> Q.
Variable ep : endpoint.

(** X3: when the endpoint replies with at least one choice, the last cell
    hands back the content of the first choice unchanged (splitting it
    into characters and joining them again alters nothing) together with
    the prompt it composed from the query and the ten closest titles; it
    has sent that one request, and the generator, the collection and the
    record of calls are as they were. *)
Theorem suggest_titles_returns_first_choice :
  forall (user_query : string) (w : world embedding) (r : response) (c : choice)
         (cs : list choice),
    let prompt :=
      compose_prompt user_query
        (map (@Chroma.document _ _) (ranked encode_text distance user_query 10 w)) in
    ep (sent w ++ [chat_request prompt]) = Reply r ->
    choices r = c :: cs ->
    suggest_titles encode_text distance ep user_query w =
    (Ok (content (choice_message c), prompt),
     with_sent (sent w ++ [chat_request prompt]) w).
Proof.
  intros user_query w r c cs prompt Hr Hc. unfold suggest_titles.
  rewrite (bind_ok _ _ _ (RagFacts.retrieve_run encode_text distance user_query 10 w)).
  unfold bind. rewrite RagFacts.rag_generate_response_run. fold prompt.
  rewrite Hr. unfold answer, first_choice. rewrite Hc.
  unfold ret. now rewrite join_characters.
Qed.

(** X4: on an empty collection the last cell does not fail before the
    completion call: it retrieves nothing and sends the template with an
    empty list of short titles. *)
Theorem suggest_titles_on_empty_collection :
  forall (user_query : string) (w : world embedding),
    collection w = [] ->
    sent (snd (suggest_titles encode_text distance ep user_query w)) =
    sent w ++ [chat_request (prompt_template user_query EmptyString)].
Proof.
  intros user_query w E. rewrite RagFacts.suggest_titles_sent.
  unfold ranked. rewrite E. cbn [Chroma.nearest fold_right].
  rewrite firstn_nil. reflexivity.
Qed.

End Cell.

(** A memoryless endpoint and the empty world of the toy instance. *)
Lemma suggest_titles_returns_first_choice_witness :
  suggest_titles toy_encode toy_distance FoodChat.parrot "Self-RAG" empty_world =
  (Ok ("Our Mini Cheeseburger is $6.99!", compose_prompt "Self-RAG" []),
   with_sent [chat_request (compose_prompt "Self-RAG" [])] empty_world).
Proof.
  apply (@suggest_titles_returns_first_choice Z toy_encode toy_distance FoodChat.parrot
           "Self-RAG" empty_world
           {| choices := [ {| choice_message :=
                                {| role := "assistant";
                                   content := "Our Mini Cheeseburger is $6.99!" |} |} ] |}
           {| choice_message := {| role := "assistant";
                                   content := "Our Mini Cheeseburger is $6.99!" |} |}
           []); reflexivity.
Defined.

Lemma suggest_titles_on_empty_collection_witness :
  sent (snd (suggest_titles toy_encode toy_distance FoodChat.out_of_quota
               "Self-RAG" empty_world)) =
  [chat_request (prompt_template "Self-RAG" EmptyString)].
Proof.
  apply (@suggest_titles_on_empty_collection Z toy_encode toy_distance
           FoodChat.out_of_quota "Self-RAG" empty_world).
  reflexivity.
Defined.

End Suggestion.

(** ** The batches of the indexing loop *)

Module Batching.
Import Pandas Rag.

Lemma slice_length {A : Type} (l : list A) (i step : nat) :
  length (Py.slice l i (i + step)) = Nat.min step (length l - i).
Proof.
  unfold Py.slice. rewrite length_firstn, length_skipn. f_equal. lia.
Qed.

(** A slice of the range that is followed by another one is full. *)
Lemma range_slices_full {A : Type} (l : list A) (step : nat) :
  forall fuel start k,
    let bs := map (fun i => Py.slice l i (i + step))
                  (Py.range_from fuel start (length l) step) in
    S k < length bs -> length (nth k bs []) = step.
Proof.
  induction fuel as [ | fuel IH]; intros start k bs Hk; subst bs.
  - simpl in Hk. lia.
  - cbn [Py.range_from] in *.
    destruct (Nat.ltb start (length l)) eqn:Hlt; [ | simpl in Hk; lia ].
    cbn [map length nth] in *. destruct k as [ | k].
    + destruct fuel as [ | fuel]; [ simpl in Hk; lia | ].
      cbn [Py.range_from] in Hk.
      destruct (Nat.ltb (start + step) (length l)) eqn:Hnext; [ | simpl in Hk; lia ].
      apply Nat.ltb_lt in Hnext. rewrite slice_length. lia.
    + apply IH. lia.
Qed.

(** The number of slices is the length from the start on, divided by the
    step and rounded up. *)
Lemma range_count (len step : nat) :
  0 < step ->
  forall fuel start,
    len - start <= fuel ->
    let n := length (Py.range_from fuel start len step) in
    len - start <= n * step < len - start + step.
Proof.
  intros Hstep. induction fuel as [ | fuel IH]; intros start Hfuel n; subst n.
  - simpl. lia.
  - cbn [Py.range_from].
    destruct (Nat.ltb start len) eqn:Hlt.
    + apply Nat.ltb_lt in Hlt. cbn [length].
      specialize (IH (start + step)). cbv zeta in IH.
      assert (Hf : len - (start + step) <= fuel) by lia.
      specialize (IH Hf).
      destruct (Nat.ltb (start + step) len) eqn:Hnext.
      * apply Nat.ltb_lt in Hnext.
        set (m := length (Py.range_from fuel (start + step) len step)) in *.
        replace (S m * step) with (step + m * step) by (simpl; lia). lia.
      * assert (E : Py.range_from fuel (start + step) len step = []).
        { destruct fuel; [ reflexivity | ]. cbn [Py.range_from]. now rewrite Hnext. }
        rewrite E. apply Nat.ltb_ge in Hnext. simpl. lia.
    + apply Nat.ltb_ge in Hlt. simpl. lia.
Qed.

Lemma batches_full (papers : list paper) (k : nat) :
  S k < length (batches papers) -> length (nth k (batches papers) []) = batch_size.
Proof.
  intros Hk. unfold batches, Py.range in *.
  apply (@range_slices_full _ papers batch_size _ _ k Hk).
Qed.

(** X5: every batch the loop visits except the last holds exactly 50
    papers, so the number of batches is the number of papers divided by 50
    and rounded up; no paper means no batch. *)
Theorem batches_are_full_but_the_last :
  forall papers : list paper,
    (forall k, S k < length (batches papers) ->
               length (nth k (batches papers) []) = 50)
    /\ length papers <= 50 * length (batches papers) < length papers + 50.
Proof.
  intros papers. split.
  - intros k Hk. now apply batches_full.
  - unfold batches, Py.range. rewrite length_map.
    pose proof (@range_count (length papers) batch_size) as H.
    unfold batch_size in *.
    specialize (H ltac:(lia) (length papers - 0) 0 (Nat.le_refl _)).
    cbv zeta in H. lia.
Qed.

(** A hundred and twenty papers: three batches, the first of them full. *)
Lemma batches_are_full_but_the_last_witness :
  length (nth 0 (batches (repeat llemma 120)) []) = 50
  /\ length (batches (repeat llemma 120)) = 3.
Proof.
  destruct (batches_are_full_but_the_last (repeat llemma 120)) as [Hfull Hcount].
  split.
  - apply Hfull. vm_compute. lia.
  - vm_compute. reflexivity.
Defined.

Section Loop.

Variable embedding : Type.
Variable encode_text : string -> embedding.

Local Abbreviation world := (world embedding).
Local Abbreviation index_batch := (index_batch encode_text).
Local Abbreviation after_batches := (after_batches encode_text).

(** The batch a given paper falls in. *)
Lemma concat_split {A : Type} (bs : list (list A)) :
  forall (pre post : list A) (p : A),
    concat bs = pre ++ p :: post ->
    exists bs1 b1 b2 bs2,
      bs = bs1 ++ (b1 ++ p :: b2) :: bs2 /\ pre = concat bs1 ++ b1.
Proof.
  induction bs as [ | b bs IH]; intros pre post p E.
  - destruct pre; discriminate E.
  - cbn [concat] in E. apply app_eq_app in E. destruct E as (l & [[E1 E2] | [E1 E2]]).
    + destruct l as [ | x l].
      * cbn [List.app] in E2. rewrite List.app_nil_r in E1. subst b.
        destruct (IH [] post p (eq_sym E2)) as (bs1 & b1 & b2 & bs2 & Hbs & Hpre).
        exists (pre :: bs1), b1, b2, bs2. split.
        -- now rewrite Hbs.
        -- cbn [concat]. rewrite <- List.app_assoc, <- Hpre. now rewrite List.app_nil_r.
      * injection E2 as Ex El. subst x post b.
        exists [], pre, l, bs. split; reflexivity.
    + destruct (IH l post p E2) as (bs1 & b1 & b2 & bs2 & Hbs & Hpre).
      exists (b :: bs1), b1, b2, bs2. split.
      * now rewrite Hbs.
      * cbn [concat]. rewrite <- List.app_assoc, <- Hpre. exact E1.
Qed.

(** The run of the loop over a list whose first paper without a title
    comes after [pre]: the type error when the batches before its batch
    are accepted, the error of a repeated id otherwise. *)
Lemma index_papers_fails (pre post : list paper) (p : paper) (w : world) :
  Forall has_title pre -> Title p = None ->
  exists bs1 b1 b2 bs2,
    batches (pre ++ p :: post) = bs1 ++ (b1 ++ p :: b2) :: bs2
    /\ pre = concat bs1 ++ b1
    /\ (all_accepted bs1 (rng w) = true ->
        index_papers encode_text (pre ++ p :: post) w =
        (Raise TypeError,
         with_rng (rng_after b1 (rng (after_batches w bs1))) (after_batches w bs1)))
    /\ (all_accepted bs1 (rng w) = false ->
        fst (index_papers encode_text (pre ++ p :: post) w) = Raise DuplicateIDError).
Proof.
  intros Hpre Hp.
  destruct (concat_split (batches (pre ++ p :: post)) pre post p
              (RagFacts.batches_concat (pre ++ p :: post)))
    as (bs1 & b1 & b2 & bs2 & Hbs & Hcat).
  exists bs1, b1, b2, bs2. split; [ exact Hbs | ]. split; [ exact Hcat | ].
  rewrite Hcat in Hpre. apply Forall_app in Hpre. destruct Hpre as [H1 H2].
  apply Forall_concat in H1.
  pose proof (RagFacts.batches_nonempty (pre ++ p :: post)) as Hne.
  rewrite Hbs in Hne. apply Forall_app in Hne. destruct Hne as [Hne1 _].
  rewrite RagFacts.index_papers_batches, Hbs. split.
  - intros Hacc. rewrite (RagFacts.run_prefix encode_text _ Hne1 H1 w Hacc).
    cbn [Py.for_each]. apply bind_raise. now apply RagFacts.index_batch_fails.
  - intros Hacc.
    destruct (RagFacts.first_refused _ _ Hacc) as (c1 & b & c2 & E & Hacc1 & Hrep).
    subst bs1. rewrite <- List.app_assoc. cbn [List.app].
    apply Forall_app in Hne1. destruct Hne1 as [Hc1 _].
    apply Forall_app in H1. destruct H1 as [Ht1 Ht2].
    inversion Ht2 as [ | ? ? Hb _]; subst.
    rewrite (RagFacts.run_prefix encode_text _ Hc1 Ht1 w Hacc1).
    cbn [Py.for_each]. erewrite bind_raise; [ reflexivity | ].
    apply RagFacts.index_batch_refused; [ exact Hb | ].
    destruct (RagFacts.after_batches_fields encode_text c1 w) as (Hr & _).
    now rewrite Hr.
Qed.

(** The loop ends only when every paper has a title and no batch gets an
    id twice. *)
Lemma index_papers_ok_inv (papers : list paper) (w w' : world) :
  index_papers encode_text papers w = (Ok tt, w') ->
  Forall has_title papers /\ all_accepted (batches papers) (rng w) = true.
Proof.
  intros Hrun.
  destruct (RagFacts.first_untitled papers)
    as [Hall | (pre & p & post & E & Hpre & Hp)].
  - split; [ exact Hall | ].
    destruct (all_accepted (batches papers) (rng w)) eqn:Hacc; [ reflexivity | ].
    destruct (RagFacts.index_papers_refused encode_text w Hall Hacc)
      as (bs1 & b & bs2 & _ & _ & _ & Hfail).
    rewrite Hfail in Hrun. discriminate Hrun.
  - subst papers.
    destruct (@index_papers_fails pre post p w Hpre Hp)
      as (bs1 & b1 & b2 & bs2 & _ & _ & Htype & Hdup).
    destruct (all_accepted bs1 (rng w)) eqn:Hacc.
    + rewrite (Htype eq_refl) in Hrun. discriminate Hrun.
    + specialize (Hdup eq_refl). rewrite Hrun in Hdup. discriminate Hdup.
Qed.

Lemma full_batches_length (bs : list (list paper)) :
  Forall (fun b : list paper => length b = batch_size) bs ->
  length (concat bs) = batch_size * length bs.
Proof.
  induction 1 as [ | b bs Hb _ IH]; cbn [concat length].
  - lia.
  - rewrite length_app, Hb, IH. lia.
Qed.

Lemma calls_of_length (bs : list (list paper)) (g : Py.generator) :
  length (calls_of encode_text bs g) = length bs.
Proof.
  rewrite <- (length_map (@call_documents embedding)), RagFacts.calls_of_documents.
  apply length_map.
Qed.

Lemma skip_add (a b : nat) :
  forall g, Py.skip (a + b) g = Py.skip b (Py.skip a g).
Proof. induction a as [ | a IH]; intros g; simpl; [ reflexivity | apply IH ]. Qed.

Lemma rng_after_skip (papers : list paper) :
  forall g, rng_after papers g = Py.skip (total_chars papers) g.
Proof.
  induction papers as [ | p papers IH]; intros g; cbn [rng_after total_chars].
  - reflexivity.
  - rewrite IH. unfold rng_past. now rewrite skip_add.
Qed.

Lemma firstn_length_app {A : Type} (l l' : list A) : firstn (length l) (l ++ l') = l.
Proof.
  rewrite firstn_app, firstn_all, Nat.sub_diag. cbn [firstn]. apply List.app_nil_r.
Qed.

(** X6: the loop runs to its end exactly when every paper has a title and
    no batch gets an id twice; on whatever the loader returns it runs to
    its end or raises the error of a repeated id, never the type error. *)
Theorem index_papers_succeeds_iff_titled_and_accepted :
  forall (papers : list paper) (w : world),
    ((exists w' : world, index_papers encode_text papers w = (Ok tt, w'))
     <-> Forall has_title papers /\ all_accepted (batches papers) (rng w) = true)
    /\ (forall csv : list paper,
          fst (index_papers encode_text (ml_papers_dict csv) w) = Ok tt
          \/ fst (index_papers encode_text (ml_papers_dict csv) w) =
             Raise DuplicateIDError).
Proof.
  intros papers w. split; [ split | ].
  - intros [w' Hrun]. apply index_papers_ok_inv with (w' := w'); exact Hrun.
  - intros [Hall Hacc]. eexists. now apply RagFacts.index_papers_run.
  - intros csv. pose proof (RagFacts.ml_papers_dict_titled csv) as Hall.
    destruct (all_accepted (batches (ml_papers_dict csv)) (rng w)) eqn:Hacc.
    + left. now rewrite (RagFacts.index_papers_run encode_text w Hall Hacc).
    + right.
      destruct (RagFacts.index_papers_refused encode_text w Hall Hacc)
        as (bs1 & b & bs2 & _ & _ & _ & Hfail).
      now rewrite Hfail.
Qed.

(** X7: a paper whose title is missing makes the loop raise.  When the
    whole batches of 50 before it are accepted by the store, it raises the
    type error of iterating over a value that is no string: by then those
    batches are upserted and stay so, and the papers of its own batch are
    neither embedded nor upserted, although the random numbers for those
    before it are drawn.  When one of the batches before it gets an id
    twice, the loop has raised the error of the repeated id before. *)
Theorem index_papers_stops_at_missing_title :
  forall (pre post : list paper) (p : paper) (w : world),
    Forall has_title pre -> Title p = None ->
    exists (k : nat) (done pending : list paper),
      pre = done ++ pending
      /\ length done = 50 * k
      /\ length pending < 50
      /\ concat (firstn k (batches (pre ++ p :: post))) = done
      /\ (all_accepted (firstn k (batches (pre ++ p :: post))) (rng w) = true ->
          exists w' : world,
            index_papers encode_text (pre ++ p :: post) w = (Raise TypeError, w')
            /\ collection w' =
               Chroma.upsert_all (entries_of encode_text done (rng w)) (collection w)
            /\ length (upserted w') = length (upserted w) + k
            /\ length (encoded w') = length (encoded w) + k
            /\ rng w' = rng_after pre (rng w)
            /\ sent w' = sent w)
      /\ (all_accepted (firstn k (batches (pre ++ p :: post))) (rng w) = false ->
          fst (index_papers encode_text (pre ++ p :: post) w) = Raise DuplicateIDError).
Proof.
  intros pre post p w Hpre Hp.
  destruct (@index_papers_fails pre post p w Hpre Hp)
    as (bs1 & b1 & b2 & bs2 & Hbs & Hcat & Htype & Hdup).
  destruct (RagFacts.after_batches_fields encode_text bs1 w)
    as (Hr & Hc & Hs & He & Hu).
  exists (length bs1), (concat bs1), b1.
  rewrite Hbs, firstn_length_app.
  split; [ exact Hcat | ]. split; [ | split; [ | split; [ reflexivity | split ] ] ].
  - apply full_batches_length. apply Forall_forall. intros b Hb.
    destruct (In_nth _ _ [] Hb) as (k & Hk & Hnth).
    rewrite <- Hnth, <- (app_nth1 bs1 ((b1 ++ p :: b2) :: bs2) [] Hk), <- Hbs.
    apply batches_full. rewrite Hbs, length_app. simpl. lia.
  - pose proof (RagFacts.batches_length (pre ++ p :: post)) as Hlen.
    rewrite Forall_forall in Hlen. specialize (Hlen (b1 ++ p :: b2)).
    rewrite Hbs in Hlen. specialize (Hlen (in_elt _ _ _)).
    rewrite length_app in Hlen. unfold batch_size in Hlen. simpl in Hlen. lia.
  - intros Hacc.
    exists (with_rng (rng_after b1 (rng (after_batches w bs1))) (after_batches w bs1)).
    split; [ exact (Htype Hacc) | ].
    cbn [collection upserted encoded rng sent with_rng].
    rewrite Hc, Hu, He, Hr, Hs, !length_app, calls_of_length, length_map.
    replace (rng_after pre (rng w))
      with (rng_after b1 (rng_after (concat bs1) (rng w)))
      by (now rewrite Hcat, RagFacts.rng_after_app).
    repeat split.
  - exact Hdup.
Qed.

(** X8: when the loop runs to its end, it has sent nothing to the
    completion endpoint and drawn exactly one random number per character
    of the titles. *)
Theorem index_papers_draws_one_number_per_character :
  forall (papers : list paper) (w w' : world),
    index_papers encode_text papers w = (Ok tt, w') ->
    sent w' = sent w
    /\ rng w' = Py.skip (total_chars papers) (rng w).
Proof.
  intros papers w w' Hrun.
  destruct (@index_papers_ok_inv papers w w' Hrun) as [Hall Hacc].
  rewrite (RagFacts.index_papers_run encode_text w Hall Hacc) in Hrun.
  injection Hrun as Hw. subst w'.
  destruct (RagFacts.after_batches_fields encode_text (batches papers) w)
    as (Hr & _ & Hs & _).
  split; [ exact Hs | ].
  now rewrite Hr, RagFacts.batches_concat, rng_after_skip.
Qed.

End Loop.

(** Two papers of the loader whose ids differ. *)
Lemma index_papers_succeeds_iff_titled_and_accepted_witness :
  exists w' : Rag.world Z,
    index_papers toy_encode (ml_papers_dict [llemma; self_rag]) empty_world = (Ok tt, w').
Proof.
  destruct (@index_papers_succeeds_iff_titled_and_accepted Z toy_encode
              (ml_papers_dict [llemma; self_rag]) empty_world) as [[_ H] _].
  apply H. split.
  - repeat constructor; discriminate.
  - vm_compute. reflexivity.
Defined.

(** Three papers, the second without a title: no whole batch comes before
    it, and nothing is upserted. *)
Lemma index_papers_stops_at_missing_title_witness :
  exists (k : nat) (done pending : list paper),
    [llemma] = done ++ pending
    /\ length done = 50 * k
    /\ length pending < 50
    /\ concat (firstn k (batches ([llemma] ++ untitled :: [self_rag]))) = done
    /\ (all_accepted (firstn k (batches ([llemma] ++ untitled :: [self_rag])))
          (rng empty_world) = true ->
        exists w' : Rag.world Z,
          index_papers toy_encode ([llemma] ++ untitled :: [self_rag]) empty_world =
            (Raise TypeError, w')
          /\ collection w' =
             Chroma.upsert_all (entries_of toy_encode done (rng empty_world))
               (collection empty_world)
          /\ length (upserted w') = length (upserted empty_world) + k
          /\ length (encoded w') = length (encoded empty_world) + k
          /\ rng w' = rng_after [llemma] (rng empty_world)
          /\ sent w' = sent empty_world)
    /\ (all_accepted (firstn k (batches ([llemma] ++ untitled :: [self_rag])))
          (rng empty_world) = false ->
        fst (index_papers toy_encode ([llemma] ++ untitled :: [self_rag]) empty_world) =
        Raise DuplicateIDError).
Proof.
  apply (@index_papers_stops_at_missing_title Z toy_encode [llemma] [self_rag]
           untitled empty_world).
  - repeat constructor. discriminate.
  - reflexivity.
Defined.

(** Two papers of six and eight characters: fourteen numbers are drawn. *)
Lemma index_papers_draws_one_number_per_character_witness :
  sent (snd (index_papers toy_encode [llemma; self_rag] empty_world)) = []
  /\ rng (snd (index_papers toy_encode [llemma; self_rag] empty_world)) =
     Py.skip 14 steady.
Proof.
  apply (@index_papers_draws_one_number_per_character Z toy_encode
           [llemma; self_rag] empty_world).
  rewrite RagFacts.index_papers_run.
  - reflexivity.
  - repeat constructor; discriminate.
  - vm_compute. reflexivity.
Defined.

End Batching.

(** ** The ids of the papers *)

Module Ids.
Import Pandas Rag.

Lemma code_sum_bounds (a b : N) (title : string) :
  forall offsets,
    length offsets = String.length title ->
    Forall (fun r => (a <= r <= b)%N) offsets ->
    (ord_sum title + a * N.of_nat (String.length title)
     <= code_sum title offsets
     <= ord_sum title + b * N.of_nat (String.length title))%N.
Proof.
  induction title as [ | c rest IH]; intros offsets Hlen Hall.
  - simpl. lia.
  - destruct offsets as [ | r offsets]; [ discriminate | ].
    inversion Hall as [ | ? ? Hr Hrest]; subst.
    injection Hlen as Hlen. specialize (IH offsets Hlen Hrest).
    cbn [code_sum ord_sum String.length]. rewrite Nat2N.inj_succ. lia.
Qed.

(** Under a generator that repeats one number every offset is the same. *)
Lemma code_sum_repeating (title : string) :
  forall g : Py.generator,
    (forall i, g i = g 0) ->
    code_sum title (Py.draws 1 10000 g (String.length title)) =
    (ord_sum title
     + Py.randint_value 1 10000 (g 0%nat) * N.of_nat (String.length title))%N.
Proof.
  induction title as [ | c rest IH]; intros g Hg.
  - simpl. lia.
  - cbn [code_sum ord_sum String.length Py.draws].
    rewrite (IH (Py.advance g)).
    + unfold Py.advance. rewrite (Hg 1). rewrite Nat2N.inj_succ. lia.
    + intros i. unfold Py.advance. now rewrite (Hg (S i)), (Hg 1).
Qed.

(** Rearranging the characters of a title changes neither the sum of
    their codes nor their number. *)
Lemma rearranged (l1 l2 : list ascii) :
  Permutation l1 l2 ->
  ord_sum (string_of_list_ascii l1) = ord_sum (string_of_list_ascii l2)
  /\ String.length (string_of_list_ascii l1) = String.length (string_of_list_ascii l2).
Proof.
  induction 1 as [ | c l1 l2 _ [IHs IHl] | c d l | l1 l2 l3 _ [IHs1 IHl1] _ [IHs2 IHl2]];
    cbn [string_of_list_ascii ord_sum String.length].
  - split; reflexivity.
  - split; congruence.
  - split; [ lia | reflexivity ].
  - split; congruence.
Qed.

Section Draws.

Variable embedding : Type.

(** X9: the number an id spells lies between the sum of the character
    codes of the title plus the number of its characters and that sum plus
    10000 times the number of characters. *)
Theorem batch_id_bounds :
  forall (p : paper) (title : string) (w : world embedding),
    Title p = Some title ->
    exists n : N,
      fst (batch_id p w) = Ok (Py.str n)
      /\ (ord_sum title + N.of_nat (String.length title)
          <= n
          <= ord_sum title + 10000 * N.of_nat (String.length title))%N.
Proof.
  intros p title w Ht.
  assert (Hp : has_title p) by (unfold has_title; congruence).
  exists (code_sum title (Py.draws 1 10000 (rng w) (String.length title))). split.
  - rewrite (RagFacts.batch_id_run w Hp). unfold id_of, title_chars.
    now rewrite Ht.
  - pose proof (@code_sum_bounds 1 10000 title
                  (Py.draws 1 10000 (rng w) (String.length title))
                  (RagFacts.draws_length 1 10000 _ _)
                  (@RagFacts.draws_range 1 10000 _ ltac:(lia) _)) as H.
    lia.
Qed.

(** X10: ids collide.  Two papers whose titles are rearrangements of each
    other get the same id from a generator that repeats one number, that
    is whenever the same offset is drawn for every character. *)
Theorem rearranged_titles_share_an_id :
  forall (p1 p2 : paper) (t1 t2 : string) (w : world embedding),
    Title p1 = Some t1 -> Title p2 = Some t2 ->
    Permutation (list_ascii_of_string t1) (list_ascii_of_string t2) ->
    (forall i, rng w i = rng w 0) ->
    fst (batch_id p1 w) = fst (batch_id p2 w).
Proof.
  intros p1 p2 t1 t2 w H1 H2 Hperm Hg.
  assert (Hp1 : has_title p1) by (unfold has_title; congruence).
  assert (Hp2 : has_title p2) by (unfold has_title; congruence).
  rewrite (RagFacts.batch_id_run _ Hp1), (RagFacts.batch_id_run _ Hp2).
  cbn [fst]. unfold id_of, title_chars. rewrite H1, H2.
  rewrite !code_sum_repeating by exact Hg.
  destruct (rearranged Hperm) as [Hs Hl].
  rewrite !string_of_list_ascii_of_string in Hs, Hl. now rewrite Hs, Hl.
Qed.

End Draws.

Lemma batch_id_bounds_witness :
  exists n : N,
    fst (batch_id llemma empty_world) = Ok (Py.str n)
    /\ (ord_sum "Llemma" + N.of_nat 6 <= n <= ord_sum "Llemma" + 10000 * N.of_nat 6)%N.
Proof.
  apply (@batch_id_bounds Z llemma "Llemma" empty_world). reflexivity.
Defined.

Lemma rearranged_titles_share_an_id_witness :
  fst (batch_id (titled "star") empty_world) =
  fst (batch_id (titled "rats") empty_world).
Proof.
  apply (@rearranged_titles_share_an_id Z (titled "star") (titled "rats")
           "star" "rats" empty_world); try reflexivity.
  apply Permutation_rev.
Defined.

End Ids.

(** ** The collection after indexing *)

Module IndexedStore.
Import Pandas Rag.

Section Store.

Variables metadata embedding : Type.

Local Abbreviation entry := (Chroma.entry metadata embedding).
Local Abbreviation collection := (Chroma.collection metadata embedding).

Lemma upsert_one_In (e x : entry) (c : collection) :
  In x (Chroma.upsert_one e c) -> x = e \/ In x c.
Proof.
  induction c as [ | y c IH]; simpl.
  - intros [E | []]. now left.
  - destruct (String.eqb (Chroma.id y) (Chroma.id e)); simpl.
    + intros [E | H]; [ now left | right; now right ].
    + intros [E | H]; [ right; now left | ].
      destruct (IH H) as [E | H']; [ now left | right; now right ].
Qed.

Lemma upsert_all_In (es : list entry) (x : entry) :
  forall c : collection, In x (Chroma.upsert_all es c) -> In x es \/ In x c.
Proof.
  induction es as [ | e es IH]; intros c H.
  - now right.
  - cbn [Chroma.upsert_all fold_left] in H. destruct (IH _ H) as [H' | H'].
    + left. now right.
    + destruct (upsert_one_In _ _ _ H') as [E | H'']; [ left; now left | now right ].
Qed.

Lemma upsert_all_Forall (P : entry -> Prop) (es : list entry) (c : collection) :
  Forall P es -> Forall P c -> Forall P (Chroma.upsert_all es c).
Proof.
  rewrite !Forall_forall. intros Hes Hc x Hx.
  destruct (upsert_all_In _ _ _ Hx); auto.
Qed.

Lemma upsert_one_grows (e : entry) (c : collection) :
  length c <= length (Chroma.upsert_one e c) <= S (length c).
Proof.
  rewrite ChromaFacts.upsert_one_length.
  destruct (in_dec string_dec (Chroma.id e) (map (@Chroma.id _ _) c)); lia.
Qed.

Lemma upsert_all_grows (es : list entry) :
  forall c : collection,
    length c <= length (Chroma.upsert_all es c) <= length c + length es.
Proof.
  induction es as [ | e es IH]; intros c; cbn [Chroma.upsert_all fold_left length].
  - lia.
  - specialize (IH (Chroma.upsert_one e c)).
    pose proof (upsert_one_grows e c).
    unfold Chroma.upsert_all in IH. lia.
Qed.

Lemma upsert_all_keeps_ids (es : list entry) (i : string) :
  forall c : collection,
    In i (map (@Chroma.id _ _) c) ->
    In i (map (@Chroma.id _ _) (Chroma.upsert_all es c)).
Proof.
  induction es as [ | e es IH]; intros c H.
  - exact H.
  - cbn [Chroma.upsert_all fold_left]. apply IH.
    apply ChromaFacts.upsert_one_ids. now right.
Qed.

End Store.

Section Indexed.

Variable embedding : Type.
Variable encode_text : string -> embedding.
Variable distance : embedding -> embedding -> Q.

Local Abbreviation world := (world embedding).

Lemma entries_of_embed (papers : list paper) :
  forall g, Forall (embeds encode_text) (entries_of encode_text papers g).
Proof.
  induction papers as [ | p papers IH]; intros g; cbn [entries_of]; constructor.
  - reflexivity.
  - apply IH.
Qed.

Lemma entries_of_length (papers : list paper) :
  forall g, length (entries_of encode_text papers g) = length papers.
Proof.
  induction papers as [ | p papers IH]; intros g; cbn [entries_of length];
    [ | rewrite IH ]; reflexivity.
Qed.

Lemma entries_of_documents (papers : list paper) :
  forall g, map (@Chroma.document _ _) (entries_of encode_text papers g) =
            map batch_title papers.
Proof.
  induction papers as [ | p papers IH]; intros g; cbn [entries_of map];
    [ | rewrite IH ]; reflexivity.
Qed.

(** X11: if the vector of every entry of the collection is the embedding
    of its document, so it is after the loop, whether the loop ends or
    raises: a title is stored with the vector the query function would
    compute for it. *)
Theorem index_papers_keeps_vectors_of_documents :
  forall (papers : list paper) (w : world),
    Forall (embeds encode_text) (collection w) ->
    Forall (embeds encode_text) (collection (snd (index_papers encode_text papers w))).
Proof.
  intros papers w H.
  destruct (RagFacts.index_papers_collection encode_text papers w) as (done & rest & _ & Hc).
  rewrite Hc. apply upsert_all_Forall; [ apply entries_of_embed | exact H ].
Qed.

(** X12: the loop keeps the ids of the collection distinct, removes no
    id, and adds at most one entry per paper (fewer when ids collide),
    whether it ends or raises. *)
Theorem index_papers_grows_collection_by_at_most_one_per_paper :
  forall (papers : list paper) (w : world),
    NoDup (map (@Chroma.id metadata embedding) (collection w)) ->
    let c' := collection (snd (index_papers encode_text papers w)) in
    NoDup (map (@Chroma.id metadata embedding) c')
    /\ length (collection w) <= length c' <= length (collection w) + length papers
    /\ (forall i, In i (map (@Chroma.id _ _) (collection w)) ->
                  In i (map (@Chroma.id _ _) c')).
Proof.
  intros papers w Hnd c'. subst c'.
  destruct (RagFacts.index_papers_collection encode_text papers w) as (done & rest & Hp & Hc).
  rewrite Hc. split; [ | split ].
  - now apply ChromaFacts.upsert_all_NoDup.
  - pose proof (upsert_all_grows (entries_of encode_text done (rng w)) (collection w)) as H.
    rewrite entries_of_length in H. rewrite Hp, length_app. lia.
  - intros i Hi. now apply upsert_all_keeps_ids.
Qed.

(** X13: after the loop a query returns only documents that were in the
    collection before or are the document texts of the papers given to the
    loop. *)
Theorem retrieve_after_indexing_returns_known_documents :
  forall (papers : list paper) (text : string) (k : nat) (w : world),
    let w1 := snd (index_papers encode_text papers w) in
    exists docs : list string,
      retrieve encode_text distance text k w1 = (Ok docs, w1)
      /\ (forall d, In d docs ->
                    In d (map batch_title papers)
                    \/ In d (map (@Chroma.document _ _) (collection w))).
Proof.
  intros papers text k w w1.
  exists (map (@Chroma.document _ _) (ranked encode_text distance text k w1)).
  split; [ apply RagFacts.retrieve_run | ].
  intros d Hd. apply in_map_iff in Hd. destruct Hd as (e & Ed & He).
  destruct (ChromaFacts.top_k distance (encode_text text) k (collection w1))
    as (_ & _ & Hincl).
  apply Hincl in He. subst w1.
  destruct (RagFacts.index_papers_collection encode_text papers w) as (done & rest & Hp & Hc).
  rewrite Hc in He. apply upsert_all_In in He. destruct He as [He | He].
  - left. rewrite Hp, map_app. apply in_or_app. left.
    rewrite <- (entries_of_documents done (rng w)), <- Ed. now apply in_map.
  - right. rewrite <- Ed. now apply in_map.
Qed.

End Indexed.

(** Fifty-one papers indexed into the empty collection, the first and the
    last with an empty title: the two calls are accepted, and the second
    overwrites the entry of id 0, so that fifty entries are left. *)
Lemma index_papers_grows_collection_by_at_most_one_per_paper_witness :
  NoDup (map (@Chroma.id metadata Z)
           (collection (snd (index_papers toy_encode two_batches empty_world))))
  /\ length (collection (snd (index_papers toy_encode two_batches empty_world))) = 50
  /\ fst (index_papers toy_encode two_batches empty_world) = Ok tt.
Proof.
  destruct (@index_papers_grows_collection_by_at_most_one_per_paper Z toy_encode
              two_batches empty_world) as (Hnd & _ & _).
  - constructor.
  - split; [ exact Hnd | ]. split; vm_compute; reflexivity.
Defined.

Lemma index_papers_keeps_vectors_of_documents_witness :
  Forall (embeds toy_encode)
    (collection (snd (index_papers toy_encode (ml_papers_dict [llemma; self_rag])
                        empty_world)))
  /\ length (collection (snd (index_papers toy_encode (ml_papers_dict [llemma; self_rag])
                               empty_world))) = 2.
Proof.
  split.
  - apply (@index_papers_keeps_vectors_of_documents Z toy_encode
             (ml_papers_dict [llemma; self_rag]) empty_world).
    constructor.
  - vm_compute. reflexivity.
Defined.

End IndexedStore.
